(** * A Bloom filter in Python: model and verification

    The development follows [src/bloom_filter/__init__.py]: one class,
    [BloomFilter], whose constructor derives the size [m] of a bit array and
    the number [k] of hash functions from a capacity [n] and a target
    false-positive rate [fpr], and whose methods [_hash], [add] and
    [__contains__] implement double hashing over that bit array.

    Python integers are [Z]; [%] on integers is [Z.modulo] (the sign of the
    result follows the divisor, as in Python) guarded by the zero check that
    raises [ZeroDivisionError].  Python floats are modelled by the real
    number they denote, together with the special values; the floating-point
    operations the constructor uses are the fields of a record [FloatOps],
    and the predicate [accurate] states the usual relative-error model for
    them.  Exact real arithmetic, [exact_ops], is one instance.  Of the
    range of the floating-point format the model has the conversion of an
    int to a float, which raises [OverflowError] on an int that is too large:
    which ints convert is the field [f_int_in_range] of the arithmetic, and
    an arithmetic that is [accurate] converts them all.  Products and
    quotients that overflow to infinity, underflow, and the exhaustion of
    memory are outside the model. *)

From Stdlib Require Import ZArith Reals Lra Lia.
From stdpp Require Import base list strings.

Local Open Scope Z_scope.

(** ** Exceptions and results *)

Inductive exn : Set :=
| ValueError
| TypeError
| ZeroDivisionError
| IndexError
| AttributeError
| OverflowError.

Inductive result (A : Type) : Type :=
| Ok (a : A)
| Raise (e : exn).

Arguments Ok {A} a.
Arguments Raise {A} e.

(** ** Python numbers *)

Inductive pyfloat : Type :=
| FFinite (r : R)
| FInf (negative : bool)
| FNaN.

Inductive pyval : Type :=
| PyInt (z : Z)
| PyFloat (f : pyfloat).

Definition Rltb (x y : R) : bool := if Rlt_dec x y then true else false.
Definition Rleb (x y : R) : bool := if Rle_dec x y then true else false.

(** [v <= c], [c < v] and [v < c] for an integer literal [c]: Python compares
    an int and a float by their mathematical values, and every comparison
    with NaN is false. *)
Definition py_le_int (v : pyval) (c : Z) : bool :=
  match v with
  | PyInt z => z <=? c
  | PyFloat (FFinite r) => Rleb r (IZR c)
  | PyFloat (FInf negative) => negative
  | PyFloat FNaN => false
  end.

Definition py_int_lt (c : Z) (v : pyval) : bool :=
  match v with
  | PyInt z => c <? z
  | PyFloat (FFinite r) => Rltb (IZR c) r
  | PyFloat (FInf negative) => negb negative
  | PyFloat FNaN => false
  end.

Definition py_lt_int (v : pyval) (c : Z) : bool :=
  match v with
  | PyInt z => z <? c
  | PyFloat (FFinite r) => Rltb r (IZR c)
  | PyFloat (FInf negative) => negative
  | PyFloat FNaN => false
  end.

Definition isinstance_int (v : pyval) : bool :=
  match v with PyInt _ => true | PyFloat _ => false end.

Definition isinstance_float (v : pyval) : bool :=
  match v with PyInt _ => false | PyFloat _ => true end.

(** ** Floating-point operations *)

Record FloatOps : Type := {
  f_int_in_range : Z -> bool; (* whether an int operand converts to a float *)
  f_of_int : Z -> R;         (* an int operand converted in mixed arithmetic *)
  f_mul : R -> R -> R;       (* float * float *)
  f_div : R -> R -> R;       (* float / float, divisor not zero *)
  f_sub : R -> R -> R;       (* float - float *)
  f_pow : R -> Z -> R;       (* float ** int *)
  f_truediv : Z -> Z -> R;   (* int / int, divisor not zero *)
  f_log : R -> R;            (* math.log, argument positive *)
  f_exp : R -> R             (* math.exp *)
}.

Definition exact_ops : FloatOps := {|
  f_int_in_range := fun _ => true;
  f_of_int := IZR;
  f_mul := Rmult;
  f_div := Rdiv;
  f_sub := Rminus;
  f_pow := powerRZ;
  f_truediv := fun a b => (IZR a / IZR b)%R;
  f_log := ln;
  f_exp := exp
|}.


(** [approx] is within relative error [u] of [exact]. *)
Definition rel_err (u approx exact : R) : Prop :=
  (Rabs (approx - exact) <= u * Rabs exact)%R.

(** The standard model of floating-point arithmetic, without its range:
    every int converts, and every operation returns its exact result within
    relative error [u]. *)
Record accurate (u : R) (F : FloatOps) : Prop := {
  acc_int_in_range : forall z, f_int_in_range F z = true;
  acc_of_int : forall z, rel_err u (f_of_int F z) (IZR z);
  acc_mul : forall x y, rel_err u (f_mul F x y) (x * y);
  acc_div : forall x y, y <> 0%R -> rel_err u (f_div F x y) (x / y);
  acc_sub : forall x y, rel_err u (f_sub F x y) (x - y);
  acc_pow : forall x k, rel_err u (f_pow F x k) (powerRZ x k);
  acc_truediv : forall a b, b <> 0 -> rel_err u (f_truediv F a b) (IZR a / IZR b);
  acc_log : forall x, (0 < x)%R -> rel_err u (f_log F x) (ln x);
  acc_exp : forall x, rel_err u (f_exp F x) (exp x)
}.

(** [math.ceil] of a finite float. *)
Definition math_ceil (r : R) : Z := 1 - up (- r).
Arguments math_ceil : simpl never.

(** An int operand of a float operation is converted to a float; the
    conversion raises [OverflowError] when the int is out of range. *)
Definition int_to_float (F : FloatOps) (z : Z) : result R :=
  if f_int_in_range F z then Ok (f_of_int F z) else Raise OverflowError.

(** [math.log] raises [ValueError] outside its domain. *)
Definition math_log (F : FloatOps) (x : R) : result R :=
  if Rleb x 0 then Raise ValueError else Ok (f_log F x).

(** Division raises [ZeroDivisionError] on a zero divisor. *)
Definition float_div (F : FloatOps) (x y : R) : result R :=
  if Req_dec_T y 0 then Raise ZeroDivisionError else Ok (f_div F x y).

Definition int_truediv (F : FloatOps) (a b : Z) : result R :=
  if b =? 0 then Raise ZeroDivisionError else Ok (f_truediv F a b).

Definition int_mod (a b : Z) : result Z :=
  if b =? 0 then Raise ZeroDivisionError else Ok (a mod b).

(** ** Lists indexed the Python way *)

(** A negative index counts from the end; an index outside the list raises
    [IndexError]. *)
Definition list_index {A} (l : list A) (i : Z) : result nat :=
  let len := Z.of_nat (length l) in
  let j := if i <? 0 then i + len else i in
  if (0 <=? j) && (j <? len) then Ok (Z.to_nat j) else Raise IndexError.

Definition list_getitem {A} (l : list A) (i : Z) : result A :=
  match list_index l i with
  | Ok j => match l !! j with Some a => Ok a | None => Raise IndexError end
  | Raise e => Raise e
  end.

Definition list_setitem {A} (l : list A) (i : Z) (a : A) : result (list A) :=
  match list_index l i with
  | Ok j => Ok (<[j:=a]> l)
  | Raise e => Raise e
  end.

(** [range(k)] *)
Definition range (k : Z) : list Z := Z.of_nat <$> seq 0 (Z.to_nat k).

(** ** The object and its attributes *)

Record instance : Type := {
  attr_n : option pyval;
  attr_fpr : option pyval;
  attr_m : option Z;
  attr_k : option Z;
  attr_true_fpr : option R;
  attr_bits : option (list bool)
}.

(** The object handed to [__init__]: no attribute is set. *)
Definition new_instance : instance := {|
  attr_n := None; attr_fpr := None; attr_m := None;
  attr_k := None; attr_true_fpr := None; attr_bits := None
|}.

Definition set_n (v : pyval) (s : instance) : instance :=
  {| attr_n := Some v; attr_fpr := attr_fpr s; attr_m := attr_m s;
     attr_k := attr_k s; attr_true_fpr := attr_true_fpr s; attr_bits := attr_bits s |}.
Definition set_fpr (v : pyval) (s : instance) : instance :=
  {| attr_n := attr_n s; attr_fpr := Some v; attr_m := attr_m s;
     attr_k := attr_k s; attr_true_fpr := attr_true_fpr s; attr_bits := attr_bits s |}.
Definition set_m (v : Z) (s : instance) : instance :=
  {| attr_n := attr_n s; attr_fpr := attr_fpr s; attr_m := Some v;
     attr_k := attr_k s; attr_true_fpr := attr_true_fpr s; attr_bits := attr_bits s |}.
Definition set_k (v : Z) (s : instance) : instance :=
  {| attr_n := attr_n s; attr_fpr := attr_fpr s; attr_m := attr_m s;
     attr_k := Some v; attr_true_fpr := attr_true_fpr s; attr_bits := attr_bits s |}.
Definition set_true_fpr (v : R) (s : instance) : instance :=
  {| attr_n := attr_n s; attr_fpr := attr_fpr s; attr_m := attr_m s;
     attr_k := attr_k s; attr_true_fpr := Some v; attr_bits := attr_bits s |}.
Definition set_bits (v : list bool) (s : instance) : instance :=
  {| attr_n := attr_n s; attr_fpr := attr_fpr s; attr_m := attr_m s;
     attr_k := attr_k s; attr_true_fpr := attr_true_fpr s; attr_bits := Some v |}.

(** ** Methods: state of [self] and exceptions *)

Definition M (A : Type) : Type := instance -> result A * instance.

Definition ret {A} (a : A) : M A := fun s => (Ok a, s).

Definition bind {A B} (c : M A) (f : A -> M B) : M B :=
  fun s =>
    match c s with
    | (Ok a, s') => f a s'
    | (Raise e, s') => (Raise e, s')
    end.

Definition raise {A} (e : exn) : M A := fun s => (Raise e, s).

Definition lift {A} (r : result A) : M A := fun s => (r, s).

Declare Scope py_scope.
Delimit Scope py_scope with py.
Notation "'do' x <- c ; f" := (bind c (fun x => f))
  (at level 10, x name, c at level 100, f at level 200) : py_scope.
Notation "'run' c ; f" := (bind c (fun _ => f))
  (at level 10, c at level 100, f at level 200) : py_scope.
#[local] Open Scope py_scope.

(** Reading an attribute that was never assigned raises [AttributeError]. *)
Definition getattr {A} (field : instance -> option A) : M A :=
  fun s => match field s with
           | Some a => (Ok a, s)
           | None => (Raise AttributeError, s)
           end.

Definition setattr (update : instance -> instance) : M unit :=
  fun s => (Ok tt, update s).

(** The operands of the arithmetic of [__init__]: an int where the validator
    has checked for an int, a finite float where it has checked for a float
    strictly between 0 and 1.  The other branches stand for what Python would
    do with other operands; [__init__] never reaches them. *)
Definition as_int (v : pyval) : result Z :=
  match v with PyInt z => Ok z | PyFloat _ => Raise TypeError end.

Definition as_float (v : pyval) : result R :=
  match v with
  | PyFloat (FFinite r) => Ok r
  | _ => Raise TypeError
  end.

Fixpoint for_each {B} (l : list B) (body : B -> M unit) : M unit :=
  match l with
  | [] => ret tt
  | b :: l' => run body b; for_each l' body
  end.

(** [all] over a generator: stops at the first false value. *)
Fixpoint py_all {B} (l : list B) (gen : B -> M bool) : M bool :=
  match l with
  | [] => ret true
  | b :: l' => do v <- gen b; if v then py_all l' gen else ret false
  end.

Definition _validate_constructor_args : M unit :=
  do n <- getattr attr_n;
  run (if py_le_int n 0 || negb (isinstance_int n)
      then raise ValueError else ret tt);
  do fpr <- getattr attr_fpr;
  if negb (py_int_lt 0 fpr && py_lt_int fpr 1) || negb (isinstance_float fpr)
  then raise ValueError else ret tt.

Definition __init__ (F : FloatOps) (n fpr : pyval) : M unit :=
  run setattr (set_n n);
  run setattr (set_fpr fpr);
  run _validate_constructor_args;
  (* self.m = math.ceil(-n * math.log(fpr) / math.log(2) ** 2) *)
  do zn <- lift (as_int n);
  do x <- lift (as_float fpr);
  do lx <- lift (math_log F x);
  do a <- lift (int_to_float F (- zn));
  do l2 <- lift (math_log F 2);
  do q <- lift (float_div F (f_mul F a lx) (f_pow F l2 2));
  run setattr (set_m (math_ceil q));
  (* self.k = math.ceil((self.m / n) * math.log(2)) *)
  do m <- getattr attr_m;
  do d <- lift (int_truediv F m zn);
  do l2 <- lift (math_log F 2);
  run setattr (set_k (math_ceil (f_mul F d l2)));
  (* self.true_fpr = (1 - math.exp(-self.k * self.n / self.m)) ** self.k *)
  do k <- getattr attr_k;
  do sn <- getattr attr_n;
  do zsn <- lift (as_int sn);
  do m <- getattr attr_m;
  do t <- lift (int_truediv F (- k * zsn) m);
  do k <- getattr attr_k;
  run setattr (set_true_fpr (f_pow F (f_sub F 1 (f_exp F t)) k));
  (* self._bits = [False] * self.m *)
  do m <- getattr attr_m;
  setattr (set_bits (replicate (Z.to_nat m) false)).

(** [BloomFilter(n, fpr)]: a new object, initialised. *)
Definition BloomFilter (F : FloatOps) (n fpr : pyval) : result instance :=
  match __init__ F n fpr new_instance with
  | (Ok _, s) => Ok s
  | (Raise e, _) => Raise e
  end.

(** ** Hashing and the methods *)

(** The builtin [hash] on the element type, and on the pair of an element
    and a string. *)
Class Hashable (A : Type) : Type := py_hash : A -> Z.

Section Methods.
Context {A : Type} `{HA : Hashable A} `{HS : Hashable (A * string)}.

Definition _hash (x : A) (i : Z) : M Z :=
  do out_of_range <-
    (if i <? 0 then ret true else do k <- getattr attr_k; ret (i >=? k));
  if out_of_range : bool
  then do _k <- getattr attr_k; raise ValueError (* the message reads self.k *)
  else
    do m <- getattr attr_m;
    do h1 <- lift (int_mod (py_hash x) m);
    do m <- getattr attr_m;
    do h2 <- lift (int_mod (py_hash (x, "salt"%string)) m);
    do m <- getattr attr_m;
    lift (int_mod (h1 + i * h2) m).

(** The body of the loop of [add]: [self._bits[self._hash(x, hash_i)] = True].
    The list object is looked up before the index is computed, and it is
    updated in place. *)
Definition add_body (x : A) (hash_i : Z) : M unit :=
  do _bits <- getattr attr_bits;
  do idx <- _hash x hash_i;
  do bits <- getattr attr_bits;
  do bits' <- lift (list_setitem bits idx true);
  setattr (set_bits bits').

Definition add (x : A) : M unit :=
  do k <- getattr attr_k;
  for_each (range k) (add_body x).

(** The generator of [__contains__]: [self._bits[self._hash(x, hash_i)]]. *)
Definition contains_gen (x : A) (hash_i : Z) : M bool :=
  do bits <- getattr attr_bits;
  do idx <- _hash x hash_i;
  lift (list_getitem bits idx).

Definition __contains__ (x : A) : M bool :=
  do k <- getattr attr_k;
  py_all (range k) (contains_gen x).

(** A sequence of calls of [add]. *)
Definition add_all (ys : list A) (s : instance) : instance :=
  fold_left (fun s y => snd (add y s)) ys s.

(** The filters that exist: built by the constructor, then grown by [add]. *)
Inductive reachable (F : FloatOps) : instance -> Prop :=
| reach_new n fpr s : BloomFilter F n fpr = Ok s -> reachable F s
| reach_add (x : A) s : reachable F s -> reachable F (snd (add x s)).

(** The index the [i]-th hash function computes in an array of [m] bits. *)
Definition hash_index (m : Z) (x : A) (i : Z) : Z :=
  (py_hash x mod m + i * (py_hash (x, "salt"%string) mod m)) mod m.

End Methods.

(** ** Notions used in the statements *)

(** What the specification calls a positive integer and a float strictly
    between 0 and 1. *)
Definition positive_int (v : pyval) : Prop :=
  exists z, v = PyInt z /\ 0 < z.

Definition unit_float (v : pyval) : Prop :=
  exists r, v = PyFloat (FFinite r) /\ (0 < r < 1)%R.

(** The two tests of [_validate_constructor_args], both passed. *)
Definition valid_args (n fpr : pyval) : bool :=
  negb (py_le_int n 0 || negb (isinstance_int n))
  && negb (negb (py_int_lt 0 fpr && py_lt_int fpr 1) || negb (isinstance_float fpr)).

(** The values [__init__] assigns, as functions of the arguments. *)
Definition m_of (F : FloatOps) (n : Z) (x : R) : Z :=
  math_ceil (f_div F (f_mul F (f_of_int F (- n)) (f_log F x))
                     (f_pow F (f_log F 2) 2)).

Definition k_of (F : FloatOps) (n : Z) (x : R) : Z :=
  math_ceil (f_mul F (f_truediv F (m_of F n x) n) (f_log F 2)).

Definition true_fpr_of (F : FloatOps) (n : Z) (x : R) : R :=
  f_pow F (f_sub F 1 (f_exp F (f_truediv F (- k_of F n x * n) (m_of F n x))))
        (k_of F n x).

Definition built (F : FloatOps) (n : Z) (x : R) : instance := {|
  attr_n := Some (PyInt n);
  attr_fpr := Some (PyFloat (FFinite x));
  attr_m := Some (m_of F n x);
  attr_k := Some (k_of F n x);
  attr_true_fpr := Some (true_fpr_of F n x);
  attr_bits := Some (replicate (Z.to_nat (m_of F n x)) false)
|}.

(** A float literal: the value [x] the interpreter reads for the decimal
    [c], within relative error [u]. *)
Definition float_literal (u c x : R) : Prop :=
  (Rabs (x - c) <= u * Rabs c)%R.

(** The attributes the methods read, as [__init__] leaves them: a positive
    [m] and a bit array of that length. *)
Record wf (s : instance) (m k : Z) (bits : list bool) : Prop := {
  wf_m : attr_m s = Some m;
  wf_k : attr_k s = Some k;
  wf_bits : attr_bits s = Some bits;
  wf_pos : 0 < m;
  wf_len : Z.of_nat (length bits) = m
}.

(** The bits at the given indices set, in order. *)
Definition set_true (bits : list bool) (js : list Z) : list bool :=
  fold_left (fun b j => <[Z.to_nat j:=true]> b) js bits.

Definition bit_at (bits : list bool) (j : Z) : bool :=
  default false (bits !! Z.to_nat j).

(** The bit array of [s'] has the length of that of [s] and every bit that
    is set in [s] is set in [s']. *)
Definition bits_grow (s s' : instance) : Prop :=
  forall bits, attr_bits s = Some bits ->
    exists bits', attr_bits s' = Some bits'
                  /\ length bits' = length bits
                  /\ forall q : nat, bits !! q = Some true -> bits' !! q = Some true.

(** The bound on the unit roundoff under which the parameters are derived:
    [2 ^ -30]; the roundoff of double precision is [2 ^ -53]. *)
Definition u_max : R := (/ 1073741824)%R.

(** Rational bounds on [ln 2]. *)
Definition ln2_lo : R := (69314718 / 100000000)%R.
Definition ln2_hi : R := (69314719 / 100000000)%R.

(** Bounds on the float that [__init__] rounds up to [m], for a capacity
    [n] and bounds [b1 <= - ln fpr <= b2]. *)
Definition q_lo (n b1 : R) : R :=
  (n * (1 - u_max) * (b1 * (1 - u_max)) * (1 - u_max)
   / (ln2_hi * (1 + u_max) * (ln2_hi * (1 + u_max)) * (1 + u_max))
   * (1 - u_max))%R.

Definition q_hi (n b2 : R) : R :=
  (n * (1 + u_max) * (b2 * (1 + u_max)) * (1 + u_max)
   / (ln2_lo * (1 - u_max) * (ln2_lo * (1 - u_max)) * (1 - u_max))
   * (1 + u_max))%R.

(** Bounds on the float that [__init__] rounds up to [k]. *)
Definition r_lo (m n : R) : R :=
  (m / n * (1 - u_max) * (ln2_lo * (1 - u_max)) * (1 - u_max))%R.

Definition r_hi (m n : R) : R :=
  (m / n * (1 + u_max) * (ln2_hi * (1 + u_max)) * (1 + u_max))%R.

(** Partial sums of the series of [exp (- x)], used to bound logarithms:
    [exp_term x i] is [(- x) ^ i / i!]. *)
Fixpoint exp_term (x : R) (i : nat) : R :=
  match i with
  | O => 1
  | S j => exp_term x j * (- x) / IZR (Z.of_nat (S j))
  end.

Fixpoint exp_poly (x : R) (n : nat) : R :=
  match n with
  | O => 1
  | S j => exp_poly x j + exp_term x (S j)
  end.

(** The polynomial in Horner form, from the divisor [j] on:
    [1 - x / j * (1 - x / (j + 1) * ...)], [k] factors. *)
Fixpoint horner (x : R) (j : Z) (k : nat) : R :=
  match k with
  | O => 1%R
  | S k' => (1 - x / IZR j * horner x (j + 1) k')%R
  end.

(** Fixed-point bounds on [horner (p / s) j k], in units of [1 / t]: the
    lower bound rounds the quotient up and the upper bound rounds it down. *)
Fixpoint horner_bounds (p s t j : Z) (k : nat) : Z * Z :=
  match k with
  | O => (t, t)
  | S k' =>
      let lu := horner_bounds p s t (j + 1) k' in
      (t + (- (p * snd lu)) / (s * j), t - (p * fst lu) / (s * j))
  end.

(** ** Double precision on line 25, at one input *)

(** The double that the literal [0.09051270335250715] denotes, and the
    doubles that CPython (IEEE 754 binary64, rounding to nearest) returns
    for [math.log] of it, for [math.log(2)] and for [math.log(2) ** 2]. *)
Definition fpr_d : R := 6522127633450359 / 72057594037927936.
Definition log_fpr_d : R := - (5409420036127609 / 2251799813685248).
Definition log_2_d : R := 6243314768165359 / 9007199254740992.
Definition pow_d : R := 4327536028902087 / 9007199254740992.

(** Operations that return on line 25, for the capacity 1 and the target
    rate [fpr_d], what double precision returns: the two logarithms, the
    square, and the quotient [- log_fpr_d / pow_d], which is rounded to
    [5.0] (the product [-1 * log_fpr_d] is exact).  On all other operands
    they are exact. *)
Definition line_25_doubles : FloatOps := {|
  f_int_in_range := fun _ => true;
  f_of_int := IZR;
  f_mul := Rmult;
  f_div := fun a b =>
    if Req_dec_T a (- log_fpr_d)
    then if Req_dec_T b pow_d then 5%R else (a / b)%R
    else (a / b)%R;
  f_sub := Rminus;
  f_pow := fun x k =>
    if Req_dec_T x log_2_d
    then if k =? 2 then pow_d else powerRZ x k
    else powerRZ x k;
  f_truediv := fun a b => (IZR a / IZR b)%R;
  f_log := fun x =>
    if Req_dec_T x fpr_d then log_fpr_d
    else if Req_dec_T x 2 then log_2_d
    else ln x;
  f_exp := exp
|}.

(** ** A small filter over integers, for examples *)

(** CPython hashes a small non-negative int to itself; the hash of the pair
    is some other function of the element. *)
Definition int_hash : Hashable Z := fun z => z.

Definition int_salt_hash : Hashable (Z * string) :=
  fun p => 1000003 * fst p + Z.of_nat (String.length (snd p)).

Definition small_filter : instance := {|
  attr_n := Some (PyInt 2);
  attr_fpr := Some (PyFloat (FFinite (/ 2)));
  attr_m := Some 5;
  attr_k := Some 3;
  attr_true_fpr := Some (/ 2)%R;
  attr_bits := Some [true; true; false; true; false]
|}.

(** A filter of two bits, both set. *)
Definition full_filter : instance := {|
  attr_n := Some (PyInt 1);
  attr_fpr := Some (PyFloat (FFinite (/ 2)));
  attr_m := Some 2;
  attr_k := Some 2;
  attr_true_fpr := Some (/ 2)%R;
  attr_bits := Some [true; true]
|}.

(** ** The measurement of the test file *)

(** [range(a, b)] *)
Definition range_from (a b : Z) : list Z :=
  (fun i => a + Z.of_nat i) <$> seq 0 (Z.to_nat (b - a)).

(** [sum] over a generator of booleans, from the start value [acc]: [True]
    counts 1 and [False] counts 0. *)
Fixpoint py_sum {B} (l : list B) (gen : B -> M bool) (acc : Z) : M Z :=
  match l with
  | [] => ret acc
  | b :: l' => do v <- gen b; py_sum l' gen (acc + Z.b2z v)
  end.

Definition n_trials : Z := 100000.

Section Measurement.
Context `{HZ : Hashable Z} `{HZS : Hashable (Z * string)}.

(** [measure_fpr(n, fpr)] of the test file: the items are the ints
    [0 .. n - 1], the trials the ints [n .. n + n_trials - 1]. *)
Definition measure_fpr (F : FloatOps) (n fpr : pyval) : result R :=
  match BloomFilter F n fpr with
  | Raise e => Raise e
  | Ok bloom_filter =>
      fst ((do zn <- lift (as_int n);
            run for_each (range zn) add;
            do n_false_positive <-
              py_sum (range_from zn (zn + n_trials)) __contains__ 0;
            lift (int_truediv F n_false_positive n_trials)) bloom_filter)
  end.

(** Whether the filter [s] reports [item]: [item in bloom_filter] returns
    [True]. *)
Definition reported (s : instance) (item : Z) : bool :=
  match fst (__contains__ item s) with
  | Ok true => true
  | _ => false
  end.

End Measurement.

(** The number of bits that are set. *)
Fixpoint count_true (bits : list bool) : nat :=
  match bits with
  | [] => 0
  | b :: bits' => (if b then 1 else 0) + count_true bits'
  end.

(** The indices of the elements [ys], in the order [add] sets them. *)
Definition indices_of {A} `{HA : Hashable A} `{HS : Hashable (A * string)}
    (m k : Z) (ys : list A) : list Z :=
  concat ((fun y => hash_index m y <$> range k) <$> ys).

(** The attributes that [__init__] derives or stores and no method assigns. *)
Definition same_parameters (s s' : instance) : Prop :=
  attr_n s' = attr_n s /\ attr_fpr s' = attr_fpr s /\ attr_m s' = attr_m s
  /\ attr_k s' = attr_k s /\ attr_true_fpr s' = attr_true_fpr s.

(** * Verification *)

(** ** Ceiling *)

Local Open Scope R_scope.

Lemma math_ceil_bounds (r : R) : IZR (math_ceil r) - 1 < r <= IZR (math_ceil r).
Proof.
  unfold math_ceil. destruct (archimed (- r)) as [H1 H2].
  rewrite minus_IZR. lra.
Qed.

Lemma math_ceil_unique (r : R) (z : Z) : IZR z - 1 < r <= IZR z -> math_ceil r = z.
Proof.
  intros [H1 H2]. destruct (math_ceil_bounds r) as [H3 H4].
  assert (Hlt1 : (math_ceil r < z + 1)%Z).
  { apply lt_IZR. rewrite plus_IZR. lra. }
  assert (Hlt2 : (z < math_ceil r + 1)%Z).
  { apply lt_IZR. rewrite plus_IZR. lra. }
  lia.
Qed.

Lemma math_ceil_pos (r : R) : 0 < r -> (0 < math_ceil r)%Z.
Proof.
  intros H. destruct (math_ceil_bounds r) as [_ H2].
  apply lt_IZR. lra.
Qed.

(** ** Relative error *)

Lemma rel_err_exact u x : 0 <= u -> rel_err u x x.
Proof.
  intros Hu. unfold rel_err. rewrite Rminus_diag, Rabs_R0.
  apply Rmult_le_pos; [assumption | apply Rabs_pos].
Qed.

Lemma exact_ops_accurate u : 0 <= u -> accurate u exact_ops.
Proof.
  intros Hu. split; intros; try reflexivity; apply rel_err_exact; assumption.
Qed.

Lemma rel_err_pos u a x : u < 1 -> 0 < x -> rel_err u a x -> 0 < a.
Proof.
  unfold rel_err. intros Hu Hx H.
  rewrite (Rabs_pos_eq x) in H by lra.
  assert (H' := Rle_abs (- (a - x))). rewrite Rabs_Ropp in H'. nra.
Qed.

Lemma rel_err_neg u a x : u < 1 -> x < 0 -> rel_err u a x -> a < 0.
Proof.
  unfold rel_err. intros Hu Hx H.
  rewrite (Rabs_left x) in H by lra.
  assert (H' := Rle_abs (a - x)). nra.
Qed.

(** An approximation of a value in [[lo, hi]], [0 <= lo], lies in
    [[lo * (1 - u0), hi * (1 + u0)]] when [u <= u0 <= 1]. *)
Lemma rel_err_between u u0 a x lo hi :
  rel_err u a x -> 0 <= u <= u0 -> u0 <= 1 -> 0 <= lo -> lo <= x <= hi ->
  lo * (1 - u0) <= a <= hi * (1 + u0).
Proof.
  unfold rel_err. intros H Hu Hu0 Hlo Hx.
  rewrite (Rabs_pos_eq x) in H by lra.
  assert (H1 := Rle_abs (a - x)).
  assert (H2 := Rle_abs (- (a - x))). rewrite Rabs_Ropp in H2.
  split; nra.
Qed.

Lemma rel_err_opp u a x : rel_err u a x -> rel_err u (- a) (- x).
Proof.
  unfold rel_err. intros H.
  replace (- a - - x) with (- (a - x)) by ring.
  rewrite !Rabs_Ropp. assumption.
Qed.

Lemma mult_between l1 h1 l2 h2 x y :
  0 <= l1 -> 0 <= l2 -> l1 <= x <= h1 -> l2 <= y <= h2 ->
  l1 * l2 <= x * y <= h1 * h2.
Proof. intros. split; nra. Qed.

Lemma div_between l1 h1 l2 h2 x y :
  0 <= l1 -> 0 < l2 -> l1 <= x <= h1 -> l2 <= y <= h2 ->
  l1 / h2 <= x / y <= h1 / l2.
Proof.
  intros Hl1 Hl2 Hx Hy.
  assert (Hy0 : 0 < y) by lra. assert (Hh2 : 0 < h2) by lra.
  split.
  - apply Rle_trans with (l1 / y).
    + unfold Rdiv. apply Rmult_le_compat_l; [lra |].
      apply Rinv_le_contravar; lra.
    + unfold Rdiv. apply Rmult_le_compat_r; [| lra].
      left. apply Rinv_0_lt_compat. lra.
  - apply Rle_trans with (h1 / y).
    + unfold Rdiv. apply Rmult_le_compat_r; [| lra].
      left. apply Rinv_0_lt_compat. lra.
    + unfold Rdiv. apply Rmult_le_compat_l; [lra |].
      apply Rinv_le_contravar; lra.
Qed.

Lemma Rltb_true x y : x < y -> Rltb x y = true.
Proof. intros H. unfold Rltb. destruct (Rlt_dec x y); [reflexivity | contradiction]. Qed.

Lemma Rleb_false x y : ~ x <= y -> Rleb x y = false.
Proof. intros H. unfold Rleb. destruct (Rle_dec x y); [contradiction | reflexivity]. Qed.

Lemma ln_neg x : 0 < x < 1 -> ln x < 0.
Proof. intros [H0 H1]. rewrite <- ln_1. apply ln_increasing; assumption. Qed.

Lemma ln_2_pos : 0 < ln 2.
Proof. rewrite <- ln_1. apply ln_increasing; lra. Qed.

(** ** The constructor on valid arguments *)

Section Constructor.
Variables (F : FloatOps) (u : R).
Hypothesis Hacc : accurate u F.
Hypothesis Hu : 0 <= u < 1.

Lemma f_log_2_pos : 0 < f_log F 2.
Proof.
  apply (rel_err_pos u _ (ln 2)); [lra | apply ln_2_pos |].
  apply (acc_log u F Hacc). lra.
Qed.

Lemma pow_log_2_pos : 0 < f_pow F (f_log F 2) 2.
Proof.
  apply (rel_err_pos u _ (powerRZ (f_log F 2) 2)); [lra | | apply (acc_pow u F Hacc)].
  assert (H := f_log_2_pos). simpl. nra.
Qed.

Lemma quotient_pos (n : Z) (x : R) :
  (0 < n)%Z -> 0 < x < 1 ->
  0 < f_div F (f_mul F (f_of_int F (- n)) (f_log F x)) (f_pow F (f_log F 2) 2).
Proof.
  intros Hn Hx.
  assert (Hp := pow_log_2_pos).
  assert (Hi : f_of_int F (- n) < 0).
  { apply (rel_err_neg u _ (IZR (- n))); [lra | | apply (acc_of_int u F Hacc)].
    apply IZR_lt. lia. }
  assert (Hl : f_log F x < 0).
  { apply (rel_err_neg u _ (ln x)); [lra | apply ln_neg; assumption |].
    apply (acc_log u F Hacc). lra. }
  assert (Hm : 0 < f_mul F (f_of_int F (- n)) (f_log F x)).
  { apply (rel_err_pos u _ (f_of_int F (- n) * f_log F x)); [lra | nra |].
    apply (acc_mul u F Hacc). }
  apply (rel_err_pos u _ (f_mul F (f_of_int F (- n)) (f_log F x)
                          / f_pow F (f_log F 2) 2)); [lra | |].
  - apply Rdiv_lt_0_compat; assumption.
  - apply (acc_div u F Hacc). lra.
Qed.

Lemma m_of_pos (n : Z) (x : R) : (0 < n)%Z -> 0 < x < 1 -> (0 < m_of F n x)%Z.
Proof. intros Hn Hx. apply math_ceil_pos, quotient_pos; assumption. Qed.

Lemma k_of_pos (n : Z) (x : R) : (0 < n)%Z -> 0 < x < 1 -> (0 < k_of F n x)%Z.
Proof.
  intros Hn Hx. apply math_ceil_pos.
  assert (Hm := m_of_pos n x Hn Hx).
  assert (Hd : 0 < f_truediv F (m_of F n x) n).
  { apply (rel_err_pos u _ (IZR (m_of F n x) / IZR n)); [lra | |].
    - apply Rdiv_lt_0_compat; apply IZR_lt; lia.
    - apply (acc_truediv u F Hacc). lia. }
  assert (Hl := f_log_2_pos).
  apply (rel_err_pos u _ (f_truediv F (m_of F n x) n * f_log F 2)); [lra | nra |].
  apply (acc_mul u F Hacc).
Qed.

Lemma init_valid (n : Z) (x : R) :
  (0 < n)%Z -> 0 < x < 1 ->
  __init__ F (PyInt n) (PyFloat (FFinite x)) new_instance = (Ok tt, built F n x).
Proof.
  intros Hn Hx.
  assert (Hm := m_of_pos n x Hn Hx).
  assert (Hp := pow_log_2_pos).
  unfold __init__, _validate_constructor_args, bind, setattr, getattr, lift, ret, raise.
  simpl.
  replace (n <=? 0)%Z with false by (symmetry; apply Z.leb_gt; lia).
  simpl.
  rewrite (Rltb_true 0 x), (Rltb_true x 1) by lra.
  simpl.
  unfold math_log. rewrite (Rleb_false x 0), (Rleb_false 2 0) by lra.
  unfold int_to_float. rewrite (acc_int_in_range u F Hacc).
  unfold float_div. destruct (Req_dec_T (f_pow F (f_log F 2) 2) 0) as [E | _]; [lra |].
  unfold int_truediv.
  replace (n =? 0)%Z with false by (symmetry; apply Z.eqb_neq; lia).
  simpl. fold (m_of F n x).
  replace (m_of F n x =? 0)%Z with false by (symmetry; apply Z.eqb_neq; lia).
  reflexivity.
Qed.

End Constructor.

(** ** Running a method step by step *)

Lemma bind_ok {A B} (c : M A) (f : A -> M B) s a s' :
  c s = (Ok a, s') -> bind c f s = f a s'.
Proof. intros H. unfold bind. rewrite H. reflexivity. Qed.

Lemma bind_raise {A B} (c : M A) (f : A -> M B) s e s' :
  c s = (Raise e, s') -> bind c f s = (Raise e, s').
Proof. intros H. unfold bind. rewrite H. reflexivity. Qed.

Lemma getattr_some {A} (field : instance -> option A) s a :
  field s = Some a -> getattr field s = (Ok a, s).
Proof. intros H. unfold getattr. rewrite H. reflexivity. Qed.

Lemma getattr_state {A} (field : instance -> option A) s :
  snd (getattr field s) = s.
Proof. unfold getattr. destruct (field s); reflexivity. Qed.

(** ** Validation of the constructor's arguments *)

Lemma valid_args_true n fpr :
  valid_args n fpr = true <-> positive_int n /\ unit_float fpr.
Proof.
  unfold valid_args, positive_int, unit_float. split.
  - intros H. apply andb_prop in H as [Hn Hf].
    apply negb_true_iff, orb_false_elim in Hn as [Hn1 Hn2].
    apply negb_true_iff, orb_false_elim in Hf as [Hf1 Hf2].
    apply negb_false_iff in Hn2, Hf1, Hf2.
    apply andb_prop in Hf1 as [Hf0 Hf1].
    destruct n as [z | f]; [| simpl in Hn2; discriminate].
    destruct fpr as [z' | [r | neg |]]; simpl in Hf0, Hf1, Hf2; try discriminate.
    + split.
      * exists z. split; [reflexivity |]. simpl in Hn1. apply Z.leb_gt in Hn1. lia.
      * exists r. split; [reflexivity |]. simpl in Hf0, Hf1.
        unfold Rltb in Hf0, Hf1.
        destruct (Rlt_dec 0 r); [| discriminate].
        destruct (Rlt_dec r 1); [| discriminate]. lra.
    + simpl in Hf0, Hf1. destruct neg; discriminate.
  - intros [(z & -> & Hz) (r & -> & Hr)]. simpl.
    replace (z <=? 0)%Z with false by (symmetry; apply Z.leb_gt; lia).
    rewrite (Rltb_true 0 r), (Rltb_true r 1) by lra. reflexivity.
Qed.

Lemma valid_args_false n fpr :
  valid_args n fpr = false <-> ~ positive_int n \/ ~ unit_float fpr.
Proof.
  split.
  - intros H.
    destruct (negb (py_le_int n 0 || negb (isinstance_int n))) eqn:En.
    + right. intros Hf.
      assert (Hn : positive_int n).
      { destruct n as [z | f]; simpl in En; [| rewrite orb_true_r in En; discriminate].
        exists z. split; [reflexivity |].
        rewrite orb_false_r in En. apply negb_true_iff, Z.leb_gt in En. lia. }
      assert (Ht : valid_args n fpr = true) by (apply valid_args_true; auto).
      congruence.
    + left. intros Hn. destruct Hn as (z & -> & Hz). simpl in En.
      rewrite orb_false_r in En. apply negb_false_iff, Z.leb_le in En. lia.
  - intros Hor. destruct (valid_args n fpr) eqn:E; [| reflexivity].
    apply valid_args_true in E as [Hn Hf]. destruct Hor; contradiction.
Qed.

Lemma validate_run s n fpr :
  attr_n s = Some n -> attr_fpr s = Some fpr ->
  _validate_constructor_args s
  = (if valid_args n fpr then Ok tt else Raise ValueError, s).
Proof.
  intros Hn Hf. unfold _validate_constructor_args, valid_args.
  rewrite (bind_ok _ _ s n s) by (apply getattr_some; assumption).
  destruct (py_le_int n 0 || negb (isinstance_int n)).
  - reflexivity.
  - rewrite (bind_ok _ _ s tt s) by reflexivity.
    rewrite (bind_ok _ _ s fpr s) by (apply getattr_some; assumption).
    destruct (negb (py_int_lt 0 fpr && py_lt_int fpr 1) || negb (isinstance_float fpr));
      reflexivity.
Qed.

(** On invalid arguments [__init__] raises [ValueError]; by then it has
    assigned [self.n] and [self.fpr] and nothing else. *)
Lemma init_invalid F n fpr :
  valid_args n fpr = false ->
  __init__ F n fpr new_instance
  = (Raise ValueError, set_fpr fpr (set_n n new_instance)).
Proof.
  intros H. unfold __init__.
  rewrite (bind_ok _ _ _ tt (set_n n new_instance)) by reflexivity.
  rewrite (bind_ok _ _ _ tt (set_fpr fpr (set_n n new_instance))) by reflexivity.
  apply bind_raise.
  rewrite (validate_run _ n fpr) by reflexivity.
  rewrite H. reflexivity.
Qed.

(** On valid arguments no step of [__init__] raises [ValueError], whatever
    the floating-point operations return. *)
Lemma init_valid_no_ValueError F (n : Z) (x : R) :
  (0 < n)%Z -> 0 < x < 1 ->
  fst (__init__ F (PyInt n) (PyFloat (FFinite x)) new_instance) <> Raise ValueError.
Proof.
  intros Hn Hx.
  unfold __init__, _validate_constructor_args, bind, setattr, getattr, lift, ret, raise.
  simpl.
  replace (n <=? 0)%Z with false by (symmetry; apply Z.leb_gt; lia).
  simpl.
  rewrite (Rltb_true 0 x), (Rltb_true x 1) by lra.
  simpl.
  unfold math_log. rewrite (Rleb_false x 0), (Rleb_false 2 0) by lra.
  unfold int_to_float. destruct (f_int_in_range F (- n)); [| simpl; discriminate].
  unfold float_div. destruct (Req_dec_T _ 0); [simpl; discriminate |].
  unfold int_truediv.
  replace (n =? 0)%Z with false by (symmetry; apply Z.eqb_neq; lia).
  simpl.
  destruct (_ =? 0)%Z; simpl; discriminate.
Qed.

(** When [__init__] returns, whatever the floating-point operations are:
    the arguments are valid and the attributes hold the values of the
    assignments on lines 14, 15, 25, 26, 28 and 30. *)
Lemma init_returns F (n : Z) (x : R) s :
  (0 < n)%Z -> 0 < x < 1 ->
  __init__ F (PyInt n) (PyFloat (FFinite x)) new_instance = (Ok tt, s) ->
  s = built F n x.
Proof.
  intros Hn Hx.
  unfold __init__, _validate_constructor_args, bind, setattr, getattr, lift, ret, raise.
  simpl.
  replace (n <=? 0)%Z with false by (symmetry; apply Z.leb_gt; lia).
  simpl.
  rewrite (Rltb_true 0 x), (Rltb_true x 1) by lra.
  simpl.
  unfold math_log. rewrite (Rleb_false x 0), (Rleb_false 2 0) by lra.
  unfold int_to_float. destruct (f_int_in_range F (- n)); [| simpl; discriminate].
  unfold float_div. destruct (Req_dec_T _ 0); [simpl; discriminate |].
  unfold int_truediv.
  replace (n =? 0)%Z with false by (symmetry; apply Z.eqb_neq; lia).
  simpl. fold (m_of F n x).
  destruct (m_of F n x =? 0)%Z; simpl; [discriminate |].
  intros H. injection H as <-. reflexivity.
Qed.

Lemma BloomFilter_returns F n fpr s :
  BloomFilter F n fpr = Ok s ->
  exists z x, n = PyInt z /\ fpr = PyFloat (FFinite x)
              /\ (0 < z)%Z /\ 0 < x < 1 /\ s = built F z x.
Proof.
  intros H. destruct (valid_args n fpr) eqn:E.
  - apply valid_args_true in E as [(z & -> & Hz) (x & -> & Hx)].
    exists z, x. repeat (split; [reflexivity || assumption |]).
    unfold BloomFilter in H.
    destruct (__init__ F (PyInt z) (PyFloat (FFinite x)) new_instance)
      as [[[] | e] s'] eqn:Ei; [| discriminate].
    injection H as <-. apply (init_returns F z x s' Hz Hx Ei).
  - unfold BloomFilter in H. rewrite (init_invalid F n fpr E) in H. discriminate.
Qed.


Lemma BloomFilter_valid F u n x :
  accurate u F -> 0 <= u < 1 -> (0 < n)%Z -> 0 < x < 1 ->
  BloomFilter F (PyInt n) (PyFloat (FFinite x)) = Ok (built F n x).
Proof.
  intros Hacc Hu Hn Hx. unfold BloomFilter.
  rewrite (init_valid F u Hacc Hu n x Hn Hx). reflexivity.
Qed.

Lemma BloomFilter_invalid F n fpr :
  valid_args n fpr = false -> BloomFilter F n fpr = Raise ValueError.
Proof. intros H. unfold BloomFilter. rewrite (init_invalid F n fpr H). reflexivity. Qed.

(** ** Bit arrays *)

Local Open Scope Z_scope.

Lemma set_true_length bits js : length (set_true bits js) = length bits.
Proof.
  revert bits. induction js as [|j js IH]; intros bits; simpl; [reflexivity |].
  rewrite IH. apply length_insert.
Qed.

Lemma insert_true_keeps (bits : list bool) (p q : nat) :
  bits !! q = Some true -> <[p:=true]> bits !! q = Some true.
Proof.
  intros H. destruct (decide (p = q)) as [-> | Hne].
  - apply list_lookup_insert_eq. eapply lookup_lt_Some; eassumption.
  - rewrite list_lookup_insert_ne by assumption. assumption.
Qed.

Lemma set_true_keeps bits js (q : nat) :
  bits !! q = Some true -> set_true bits js !! q = Some true.
Proof.
  revert bits. induction js as [|j js IH]; intros bits H; simpl; [assumption |].
  apply IH, insert_true_keeps, H.
Qed.

Lemma set_true_hit bits js j :
  j ∈ js -> (Z.to_nat j < length bits)%nat ->
  set_true bits js !! Z.to_nat j = Some true.
Proof.
  revert bits. induction js as [|j' js IH]; intros bits Hin Hlen.
  - inversion Hin.
  - simpl. apply elem_of_cons in Hin as [-> | Hin].
    + apply set_true_keeps, list_lookup_insert_eq, Hlen.
    + apply IH; [assumption |]. rewrite length_insert. assumption.
Qed.

Lemma set_true_id bits js :
  (forall j, j ∈ js -> (Z.to_nat j < length bits)%nat ->
             bits !! Z.to_nat j = Some true) ->
  set_true bits js = bits.
Proof.
  induction js as [|j js IH]; intros H; simpl; [reflexivity |].
  assert (E : <[Z.to_nat j:=true]> bits = bits).
  { destruct (decide (Z.to_nat j < length bits)%nat) as [Hlt | Hge].
    - apply list_insert_id, H; [left | assumption].
    - apply list_insert_ge. lia. }
  rewrite E. apply IH. intros j' Hin. apply H. right. assumption.
Qed.

Lemma set_true_idempotent bits js :
  set_true (set_true bits js) js = set_true bits js.
Proof.
  apply set_true_id. intros j Hin Hlen.
  rewrite set_true_length in Hlen. apply set_true_hit; assumption.
Qed.

Lemma bit_at_true bits j : bit_at bits j = true <-> bits !! Z.to_nat j = Some true.
Proof.
  unfold bit_at. destruct (bits !! Z.to_nat j) as [[|]|]; simpl; split;
    intros; congruence.
Qed.

Lemma elem_of_range k i : i ∈ range k <-> 0 <= i < k.
Proof.
  unfold range. rewrite list_elem_of_fmap. split.
  - intros (j & -> & Hj). apply elem_of_seq in Hj. lia.
  - intros Hi. exists (Z.to_nat i). split; [lia |]. apply elem_of_seq. lia.
Qed.

Lemma list_index_in_range {A} (l : list A) (i : Z) :
  0 <= i < Z.of_nat (length l) -> list_index l i = Ok (Z.to_nat i).
Proof.
  intros Hi. unfold list_index.
  replace (i <? 0) with false by (symmetry; apply Z.ltb_ge; lia).
  replace (0 <=? i) with true by (symmetry; apply Z.leb_le; lia).
  replace (i <? Z.of_nat (length l)) with true by (symmetry; apply Z.ltb_lt; lia).
  reflexivity.
Qed.

Lemma list_getitem_in_range (l : list bool) (i : Z) :
  0 <= i < Z.of_nat (length l) -> list_getitem l i = Ok (bit_at l i).
Proof.
  intros Hi. unfold list_getitem, bit_at. rewrite list_index_in_range by assumption.
  destruct (lookup_lt_is_Some_2 l (Z.to_nat i)) as [b Hb]; [lia |].
  rewrite Hb. reflexivity.
Qed.

Lemma list_setitem_in_range {A} (l : list A) (i : Z) (a : A) :
  0 <= i < Z.of_nat (length l) -> list_setitem l i a = Ok (<[Z.to_nat i:=a]> l).
Proof.
  intros Hi. unfold list_setitem. rewrite list_index_in_range by assumption.
  reflexivity.
Qed.

(** ** The methods on a constructed filter *)

Lemma set_bits_same s bits : attr_bits s = Some bits -> set_bits bits s = s.
Proof. destruct s. simpl. intros ->. reflexivity. Qed.

Lemma wf_set_bits s m k bits bits' :
  wf s m k bits -> length bits' = length bits -> wf (set_bits bits' s) m k bits'.
Proof.
  intros [Hm Hk Hb Hpos Hlen] Hl. split; simpl; try assumption; [reflexivity | lia].
Qed.

Section MethodFacts.
Context {A : Type} `{HA : Hashable A} `{HS : Hashable (A * string)}.

Lemma hash_index_bound m x i : 0 < m -> 0 <= hash_index m x i < m.
Proof. intros Hm. unfold hash_index. apply Z.mod_pos_bound. assumption. Qed.

Lemma hash_state (x : A) (i : Z) s : snd (_hash x i s) = s.
Proof.
  unfold _hash, bind, getattr, lift, ret, raise, int_mod.
  destruct (attr_k s) as [k|] eqn:Ek; destruct (attr_m s) as [m|] eqn:Em;
    repeat (simpl; rewrite ?Ek, ?Em; try reflexivity;
            try match goal with
                | |- context [if ?c then _ else _] => destruct c
                end).
Qed.

Lemma hash_in_range s m k bits (x : A) (i : Z) :
  wf s m k bits -> 0 <= i < k -> _hash x i s = (Ok (hash_index m x i), s).
Proof.
  intros [Hm Hk Hb Hpos Hlen] Hi.
  assert (E0 : (m =? 0) = false) by (apply Z.eqb_neq; lia).
  assert (E1 : (i <? 0) = false) by (apply Z.ltb_ge; lia).
  assert (E2 : (i >=? k) = false) by (rewrite Z.geb_leb; apply Z.leb_gt; lia).
  unfold _hash, bind, getattr, lift, ret, raise, int_mod, hash_index.
  rewrite E1. repeat (simpl; rewrite ?Hk, ?Hm, ?E0, ?E2). reflexivity.
Qed.

Lemma hash_out_of_range s m k bits (x : A) (i : Z) :
  wf s m k bits -> i < 0 \/ k <= i -> _hash x i s = (Raise ValueError, s).
Proof.
  intros [Hm Hk Hb Hpos Hlen] Hi.
  unfold _hash, bind, getattr, lift, ret, raise.
  destruct (i <? 0) eqn:E.
  - repeat (simpl; rewrite ?Hk). reflexivity.
  - apply Z.ltb_ge in E.
    assert (E2 : (i >=? k) = true) by (rewrite Z.geb_leb; apply Z.leb_le; lia).
    repeat (simpl; rewrite ?Hk, ?E2). reflexivity.
Qed.

Lemma add_unfold (x : A) :
  add x = do k <- getattr attr_k; for_each (range k) (add_body x).
Proof. reflexivity. Qed.

Lemma add_body_run s m k bits (x : A) (i : Z) :
  wf s m k bits -> 0 <= i < k ->
  add_body x i s
  = (Ok tt, set_bits (<[Z.to_nat (hash_index m x i):=true]> bits) s).
Proof.
  intros Hwf Hi. assert (Hb := hash_index_bound m x i (wf_pos _ _ _ _ Hwf)).
  unfold add_body.
  rewrite (bind_ok _ _ s bits s) by (apply getattr_some, Hwf).
  rewrite (bind_ok _ _ s _ s (hash_in_range s m k bits x i Hwf Hi)).
  rewrite (bind_ok _ _ s bits s) by (apply getattr_some, Hwf).
  unfold lift. erewrite bind_ok; [reflexivity |].
  rewrite list_setitem_in_range; [reflexivity |].
  rewrite (wf_len _ _ _ _ Hwf). assumption.
Qed.

Lemma for_each_add_run (x : A) (idxs : list Z) s m k bits :
  wf s m k bits -> (forall i, i ∈ idxs -> 0 <= i < k) ->
  for_each idxs (add_body x) s
  = (Ok tt, set_bits (set_true bits (hash_index m x <$> idxs)) s).
Proof.
  revert s bits. induction idxs as [|i idxs IH]; intros s bits Hwf Hin.
  - simpl. unfold ret. rewrite set_bits_same by apply Hwf. reflexivity.
  - simpl for_each.
    erewrite bind_ok; [| apply (add_body_run s m k bits); [assumption | apply Hin; left]].
    rewrite (IH _ (<[Z.to_nat (hash_index m x i):=true]> bits)).
    + reflexivity.
    + apply (wf_set_bits s m k bits); [assumption | apply length_insert].
    + intros i' Hi'. apply Hin. right. assumption.
Qed.

(** [add] on a constructed filter: it returns normally and sets the [k]
    bits of [x]. *)
Lemma add_run s m k bits (x : A) :
  wf s m k bits ->
  add x s = (Ok tt, set_bits (set_true bits (hash_index m x <$> range k)) s).
Proof.
  intros Hwf. rewrite add_unfold.
  rewrite (bind_ok _ _ s k s) by (apply getattr_some, Hwf).
  apply (for_each_add_run x (range k) s m k bits); [assumption |].
  intros i. apply elem_of_range.
Qed.

Lemma add_wf s m k bits (x : A) :
  wf s m k bits ->
  wf (snd (add x s)) m k (set_true bits (hash_index m x <$> range k)).
Proof.
  intros Hwf. rewrite (add_run s m k bits x Hwf). simpl.
  apply (wf_set_bits s m k bits); [assumption | apply set_true_length].
Qed.

Lemma contains_gen_run s m k bits (x : A) (i : Z) :
  wf s m k bits -> 0 <= i < k ->
  contains_gen x i s = (Ok (bit_at bits (hash_index m x i)), s).
Proof.
  intros Hwf Hi. assert (Hb := hash_index_bound m x i (wf_pos _ _ _ _ Hwf)).
  unfold contains_gen.
  rewrite (bind_ok _ _ s bits s) by (apply getattr_some, Hwf).
  rewrite (bind_ok _ _ s _ s (hash_in_range s m k bits x i Hwf Hi)).
  unfold lift. rewrite list_getitem_in_range; [reflexivity |].
  rewrite (wf_len _ _ _ _ Hwf). assumption.
Qed.

Lemma py_all_contains_run (x : A) (idxs : list Z) s m k bits :
  wf s m k bits -> (forall i, i ∈ idxs -> 0 <= i < k) ->
  py_all idxs (contains_gen x) s
  = (Ok (forallb (bit_at bits) (hash_index m x <$> idxs)), s).
Proof.
  intros Hwf. induction idxs as [|i idxs IH]; intros Hin.
  - reflexivity.
  - simpl py_all.
    erewrite bind_ok; [| apply (contains_gen_run s m k bits); [assumption | apply Hin; left]].
    simpl. destruct (bit_at bits (hash_index m x i)); simpl.
    + apply IH. intros i' Hi'. apply Hin. right. assumption.
    + reflexivity.
Qed.

(** [__contains__] on a constructed filter: the conjunction of the [k]
    bits of [x]; the object is unchanged. *)
Lemma contains_run s m k bits (x : A) :
  wf s m k bits ->
  __contains__ x s
  = (Ok (forallb (bit_at bits) (hash_index m x <$> range k)), s).
Proof.
  intros Hwf. unfold __contains__.
  rewrite (bind_ok _ _ s k s) by (apply getattr_some, Hwf).
  apply (py_all_contains_run x (range k) s m k bits Hwf).
  intros i. apply elem_of_range.
Qed.

End MethodFacts.

(** ** Effects of the methods on an arbitrary object *)

Lemma bits_grow_refl s : bits_grow s s.
Proof. intros bits H. exists bits. auto. Qed.

Lemma bits_grow_trans s1 s2 s3 : bits_grow s1 s2 -> bits_grow s2 s3 -> bits_grow s1 s3.
Proof.
  intros H12 H23 b1 H1.
  destruct (H12 b1 H1) as (b2 & H2 & Hl2 & Hb2).
  destruct (H23 b2 H2) as (b3 & H3 & Hl3 & Hb3).
  exists b3. repeat split; [assumption | congruence | auto].
Qed.

Lemma for_each_invariant {B} (R : instance -> instance -> Prop) (body : B -> M unit) :
  (forall s, R s s) -> (forall s1 s2 s3, R s1 s2 -> R s2 s3 -> R s1 s3) ->
  (forall b s, R s (snd (body b s))) ->
  forall l s, R s (snd (for_each l body s)).
Proof.
  intros Hrefl Htrans Hbody l. induction l as [|b l IH]; intros s.
  - apply Hrefl.
  - simpl. unfold bind. specialize (Hbody b s).
    destruct (body b s) as [[[]|e] s1]; simpl in *.
    + eapply Htrans; [exact Hbody | apply IH].
    + assumption.
Qed.

Lemma py_all_state {B} (gen : B -> M bool) :
  (forall b s, snd (gen b s) = s) -> forall l s, snd (py_all l gen s) = s.
Proof.
  intros Hgen l. induction l as [|b l IH]; intros s.
  - reflexivity.
  - simpl. unfold bind. specialize (Hgen b s).
    destruct (gen b s) as [[[|]|e] s1]; simpl in *; subst; auto.
Qed.

Section MethodEffects.
Context {A : Type} `{HA : Hashable A} `{HS : Hashable (A * string)}.

Lemma add_body_grows (x : A) (i : Z) s : bits_grow s (snd (add_body x i s)).
Proof.
  unfold add_body, bind.
  destruct (getattr attr_bits s) as [[b0|e] s0] eqn:E0.
  2:{ assert (Hs := getattr_state attr_bits s). rewrite E0 in Hs. simpl in *.
      subst. apply bits_grow_refl. }
  assert (Hs := getattr_state attr_bits s). rewrite E0 in Hs. simpl in Hs. subst s0.
  assert (Hh := hash_state x i s).
  destruct (_hash x i s) as [[idx|e] s1]; simpl in Hh; subst s1;
    [| apply bits_grow_refl].
  unfold getattr, lift, setattr.
  destruct (attr_bits s) as [bits|] eqn:Eb; [| apply bits_grow_refl].
  unfold list_setitem.
  destruct (list_index bits idx) as [j|e] eqn:Ej; simpl; [| apply bits_grow_refl].
  intros bits0 Hbits0. rewrite Eb in Hbits0. inversion Hbits0; subst bits0.
  exists (<[j:=true]> bits). repeat split.
  - apply length_insert.
  - intros q Hq. apply insert_true_keeps. assumption.
Qed.

Lemma add_grows (x : A) s : bits_grow s (snd (add x s)).
Proof.
  rewrite add_unfold. unfold bind.
  assert (Hs := getattr_state attr_k s).
  destruct (getattr attr_k s) as [[k|e] s0]; simpl in Hs; subst s0.
  - apply (for_each_invariant bits_grow);
      [apply bits_grow_refl | apply bits_grow_trans | apply add_body_grows].
  - apply bits_grow_refl.
Qed.

Lemma contains_gen_state (x : A) (i : Z) s : snd (contains_gen x i s) = s.
Proof.
  unfold contains_gen, bind.
  assert (Hs := getattr_state attr_bits s).
  destruct (getattr attr_bits s) as [[bits|e] s0]; simpl in Hs; subst s0;
    [| reflexivity].
  assert (Hh := hash_state x i s).
  destruct (_hash x i s) as [[idx|e] s1]; simpl in Hh; subst s1; reflexivity.
Qed.

Lemma contains_state (x : A) s : snd (__contains__ x s) = s.
Proof.
  unfold __contains__, bind.
  assert (Hs := getattr_state attr_k s).
  destruct (getattr attr_k s) as [[k|e] s0]; simpl in Hs; subst s0;
    [| reflexivity].
  apply (py_all_state (contains_gen x)). apply contains_gen_state.
Qed.

(** ** Sequences of insertions *)

Lemma add_all_wf (ys : list A) s m k bits :
  wf s m k bits ->
  exists bits', wf (add_all ys s) m k bits'
                /\ forall q : nat, bits !! q = Some true -> bits' !! q = Some true.
Proof.
  revert s bits. induction ys as [|y ys IH]; intros s bits Hwf.
  - exists bits. split; [assumption | auto].
  - simpl. destruct (IH _ _ (add_wf s m k bits y Hwf)) as (bits' & Hwf' & Hkeep).
    exists bits'. split; [assumption |].
    intros q Hq. apply Hkeep, set_true_keeps, Hq.
Qed.

Lemma built_wf F u n x :
  accurate u F -> (0 <= u < 1)%R -> (0 < n)%Z -> (0 < x < 1)%R ->
  wf (built F n x) (m_of F n x) (k_of F n x)
     (replicate (Z.to_nat (m_of F n x)) false).
Proof.
  intros Hacc Hu Hn Hx. assert (Hm := m_of_pos F u Hacc Hu n x Hn Hx).
  split; try reflexivity; [assumption |].
  rewrite length_replicate. lia.
Qed.

Lemma BloomFilter_ok F u n fpr s :
  accurate u F -> (0 <= u < 1)%R -> BloomFilter F n fpr = Ok s ->
  exists z x, n = PyInt z /\ fpr = PyFloat (FFinite x)
              /\ 0 < z /\ (0 < x < 1)%R /\ s = built F z x.
Proof.
  intros Hacc Hu H. destruct (valid_args n fpr) eqn:E.
  - apply valid_args_true in E as [(z & -> & Hz) (x & -> & Hx)].
    rewrite (BloomFilter_valid F u z x Hacc Hu Hz Hx) in H.
    inversion H. exists z, x. auto.
  - rewrite (BloomFilter_invalid F n fpr E) in H. discriminate.
Qed.

Lemma reachable_wf F u s :
  accurate u F -> (0 <= u < 1)%R -> reachable F s ->
  exists m k bits, wf s m k bits /\ 0 < k.
Proof.
  intros Hacc Hu Hr. induction Hr as [n fpr s Hs | x s Hr IH].
  - destruct (BloomFilter_ok F u n fpr s Hacc Hu Hs) as (z & r & _ & _ & Hz & Hx & ->).
    exists (m_of F z r), (k_of F z r), (replicate (Z.to_nat (m_of F z r)) false).
    split; [apply (built_wf F u); assumption | apply (k_of_pos F u); assumption].
  - destruct IH as (m & k & bits & Hwf & Hk).
    exists m, k, (set_true bits (hash_index m x <$> range k)).
    split; [apply add_wf; assumption | assumption].
Qed.

End MethodEffects.


(** ** Bounds on [exp] and [ln] *)

Local Open Scope R_scope.

Lemma exp_term_series x i :
  exp_term x i = tg_alt (fun j => x ^ j / INR (fact j)) i.
Proof.
  unfold tg_alt. induction i as [|i IH].
  - simpl. field.
  - change (exp_term x (S i)) with (exp_term x i * (- x) / IZR (Z.of_nat (S i))).
    rewrite IH, <- INR_IZR_INZ, fact_simpl, mult_INR.
    rewrite <- !tech_pow_Rmult. field.
    split; [apply INR_fact_neq_0 | apply not_0_INR; lia].
Qed.

Lemma exp_poly_series x n :
  exp_poly x n = sum_f_R0 (tg_alt (fun j => x ^ j / INR (fact j))) n.
Proof.
  induction n as [|n IH].
  - simpl. unfold tg_alt. simpl. field.
  - change (exp_poly x (S n)) with (exp_poly x n + exp_term x (S n)).
    rewrite IH, exp_term_series. reflexivity.
Qed.

Lemma pow_fact_decreasing x :
  0 <= x <= 1 -> Un_decreasing (fun j => x ^ j / INR (fact j)).
Proof.
  intros [Hx0 Hx1] j.
  rewrite fact_simpl, mult_INR, <- tech_pow_Rmult.
  assert (Hf : 0 < INR (fact j)) by apply INR_fact_lt_0.
  assert (Hs : 1 <= INR (S j)).
  { replace 1 with (INR 1) by reflexivity. apply le_INR. lia. }
  assert (Hp : 0 <= x ^ j) by (apply pow_le; assumption).
  assert (Hq : 0 <= x ^ j / INR (fact j)).
  { apply Rmult_le_pos; [assumption | left; apply Rinv_0_lt_compat; assumption]. }
  replace (x * x ^ j / (INR (S j) * INR (fact j)))
    with ((x / INR (S j)) * (x ^ j / INR (fact j))) by (field; lra).
  rewrite <- (Rmult_1_l (x ^ j / INR (fact j))) at 2.
  apply Rmult_le_compat_r; [assumption |].
  apply Rmult_le_reg_r with (INR (S j)); [lra |].
  unfold Rdiv. rewrite Rmult_assoc, Rinv_l by lra. lra.
Qed.

Lemma exp_neg_between x N :
  0 <= x <= 1 ->
  exp_poly x (S (2 * N)) <= exp (- x) <= exp_poly x (2 * N).
Proof.
  intros Hx. rewrite !exp_poly_series.
  apply alternated_series_ineq.
  - apply pow_fact_decreasing; assumption.
  - apply cv_speed_pow_fact.
  - unfold exp. destruct (exist_exp (- x)) as [l Hl]. simpl.
    intros eps Heps. destruct (Hl eps Heps) as [n0 Hn0].
    exists n0. intros n Hn.
    replace (sum_f_R0 (tg_alt (fun j => x ^ j / INR (fact j))) n)
      with (sum_f_R0 (fun i => / INR (fact i) * (- x) ^ i) n).
    + apply Hn0; assumption.
    + apply sum_eq. intros i _. unfold tg_alt.
      replace (- x) with (-1 * x) by ring. rewrite Rpow_mult_distr.
      field. apply INR_fact_neq_0.
Qed.

Lemma Rinv_lt_rev x y : 0 < x -> 0 < y -> / x < / y -> y < x.
Proof.
  intros Hx Hy H. rewrite <- (Rinv_inv x), <- (Rinv_inv y).
  apply Rinv_lt_contravar; [| assumption].
  apply Rmult_lt_0_compat; apply Rinv_0_lt_compat; assumption.
Qed.

(** Bounds on the natural logarithm obtained from the polynomials. *)
Lemma ln_lower a y N :
  0 <= a <= 1 -> 0 < y -> / y < exp_poly a (S (2 * N)) -> a < ln y.
Proof.
  intros Ha Hy H.
  destruct (exp_neg_between a N Ha) as [Hlo _].
  apply exp_lt_inv. rewrite exp_ln by assumption.
  assert (He : / y < exp (- a)) by lra.
  rewrite exp_Ropp in He.
  apply (Rinv_lt_rev y (exp a)); [assumption | apply exp_pos | assumption].
Qed.

Lemma ln_upper b y N :
  0 <= b <= 1 -> 0 < y -> exp_poly b (2 * N) < / y -> ln y < b.
Proof.
  intros Hb Hy H.
  destruct (exp_neg_between b N Hb) as [_ Hhi].
  apply exp_lt_inv. rewrite exp_ln by assumption.
  assert (He : exp (- b) < / y) by lra.
  rewrite exp_Ropp in He.
  apply (Rinv_lt_rev (exp b) y); [apply exp_pos | assumption | assumption].
Qed.

Ltac eval_exp_poly :=
  cbn [exp_poly exp_term Nat.mul Nat.add];
  repeat match goal with
         | |- context [Z.of_nat ?n] =>
             let v := eval vm_compute in (Z.of_nat n) in
             change (Z.of_nat n) with v
         end.

Lemma ln2_bounds : 69314718 / 100000000 < ln 2 < 69314719 / 100000000.
Proof.
  split.
  - apply (ln_lower _ _ 5); [lra | lra |].
    eval_exp_poly. lra.
  - apply (ln_upper _ _ 5); [lra | lra |].
    eval_exp_poly. lra.
Qed.

Lemma ln54_bounds : 22314355 / 100000000 < ln (5 / 4) < 22314356 / 100000000.
Proof.
  split.
  - apply (ln_lower _ _ 4); [lra | lra |].
    eval_exp_poly. lra.
  - apply (ln_upper _ _ 4); [lra | lra |].
    eval_exp_poly. lra.
Qed.

Lemma ln10_bounds : 230258509 / 100000000 < ln 10 < 230258513 / 100000000.
Proof.
  assert (E : ln 10 = ln 2 + ln 2 + ln 2 + ln (5 / 4)).
  { rewrite <- !ln_mult by lra. f_equal. lra. }
  assert (H2 := ln2_bounds). assert (H54 := ln54_bounds). lra.
Qed.

Lemma ln_inv_100 : ln (1 / 100) = - (2 * ln 10).
Proof.
  replace (1 / 100) with (/ (10 * 10)) by lra.
  rewrite ln_Rinv, ln_mult by lra. lra.
Qed.

Lemma ln_inv_1000 : ln (1 / 1000) = - (3 * ln 10).
Proof.
  replace (1 / 1000) with (/ (10 * 10 * 10)) by lra.
  rewrite ln_Rinv, !ln_mult by lra. lra.
Qed.

Lemma ln_half : ln (1 / 2) = - ln 2.
Proof. replace (1 / 2) with (/ 2) by lra. apply ln_Rinv. lra. Qed.

Lemma exp_le_mono x y : x <= y -> exp x <= exp y.
Proof.
  intros [H | ->]; [left; apply exp_increasing; assumption | right; reflexivity].
Qed.

Lemma exp_le_cancel x y : exp x <= exp y -> x <= y.
Proof.
  intros H. destruct (Rle_or_lt x y) as [Hle | Hlt]; [assumption |].
  apply exp_increasing in Hlt. lra.
Qed.

(** The logarithm of a value read within relative error [u] of [c]. *)
Lemma ln_literal u c x :
  0 < c -> 0 <= u <= / 2 -> float_literal u c x ->
  0 < x /\ ln c - 2 * u <= ln x <= ln c + u.
Proof.
  unfold float_literal. intros Hc Hu H.
  rewrite (Rabs_pos_eq c) in H by lra.
  assert (H1 := Rle_abs (x - c)).
  assert (H2 := Rle_abs (- (x - c))). rewrite Rabs_Ropp in H2.
  assert (Hx : 0 < x) by nra.
  split; [assumption |].
  assert (Hup : x <= c * exp u).
  { assert (He := exp_ineq1_le u). nra. }
  assert (Hlo : c * exp (- (2 * u)) <= x).
  { assert (He := exp_ineq1_le (2 * u)).
    assert (Hp := exp_pos (2 * u)).
    rewrite exp_Ropp.
    assert (Hi : / exp (2 * u) <= 1 - u).
    { apply Rmult_le_reg_l with (exp (2 * u)); [assumption |].
      rewrite Rinv_r by lra. nra. }
    nra. }
  split.
  - apply exp_le_cancel. rewrite exp_ln by assumption.
    unfold Rminus. rewrite exp_plus, exp_ln by assumption. assumption.
  - apply exp_le_cancel. rewrite exp_ln by assumption.
    rewrite exp_plus, exp_ln by assumption. assumption.
Qed.

(** ** The derived parameters under rounding *)

Section Derivation.
Variables (F : FloatOps) (u : R).
Hypothesis Hacc : accurate u F.
Hypothesis Hu : 0 <= u <= u_max.

Lemma u_max_small : 0 < u_max < / 1000000000.
Proof. unfold u_max. lra. Qed.

Lemma f_log_2_between : ln2_lo * (1 - u_max) <= f_log F 2 <= ln2_hi * (1 + u_max).
Proof.
  assert (Hm := u_max_small). assert (H2 := ln2_bounds).
  apply (rel_err_between u u_max _ (ln 2)); unfold ln2_lo, ln2_hi; try lra.
  apply (acc_log u F Hacc). lra.
Qed.

Lemma quotient_between (n : Z) (x b1 b2 : R) :
  (0 < n)%Z -> 0 < x -> 0 < b1 -> b1 <= - ln x <= b2 ->
  q_lo (IZR n) b1
  <= f_div F (f_mul F (f_of_int F (- n)) (f_log F x)) (f_pow F (f_log F 2) 2)
  <= q_hi (IZR n) b2.
Proof.
  intros Hn Hx Hb1 Hb.
  assert (Hm := u_max_small).
  assert (Hn' : 0 < IZR n) by (apply IZR_lt; assumption).
  assert (HI : IZR n * (1 - u_max) <= - f_of_int F (- n) <= IZR n * (1 + u_max)).
  { apply (rel_err_between u u_max _ (IZR n)); try lra.
    replace (IZR n) with (- IZR (- n)) by (rewrite opp_IZR; ring).
    apply rel_err_opp, (acc_of_int u F Hacc). }
  assert (HL : b1 * (1 - u_max) <= - f_log F x <= b2 * (1 + u_max)).
  { apply (rel_err_between u u_max _ (- ln x)); try lra.
    apply rel_err_opp, (acc_log u F Hacc). assumption. }
  assert (HIL : IZR n * (1 - u_max) * (b1 * (1 - u_max))
                <= f_of_int F (- n) * f_log F x
                <= IZR n * (1 + u_max) * (b2 * (1 + u_max))).
  { replace (f_of_int F (- n) * f_log F x)
      with (- f_of_int F (- n) * - f_log F x) by ring.
    apply mult_between; try assumption; nra. }
  assert (HN : IZR n * (1 - u_max) * (b1 * (1 - u_max)) * (1 - u_max)
               <= f_mul F (f_of_int F (- n)) (f_log F x)
               <= IZR n * (1 + u_max) * (b2 * (1 + u_max)) * (1 + u_max)).
  { apply (rel_err_between u u_max _ (f_of_int F (- n) * f_log F x)); try lra.
    - apply (acc_mul u F Hacc).
    - apply Rmult_le_pos; nra. }
  assert (H2 := f_log_2_between).
  assert (Hlo2 : 0 < ln2_lo * (1 - u_max)) by (unfold ln2_lo; nra).
  assert (HP2 : ln2_lo * (1 - u_max) * (ln2_lo * (1 - u_max))
                <= powerRZ (f_log F 2) 2
                <= ln2_hi * (1 + u_max) * (ln2_hi * (1 + u_max))).
  { replace (powerRZ (f_log F 2) 2) with (f_log F 2 * f_log F 2) by (simpl; ring).
    apply mult_between; lra. }
  assert (HP : ln2_lo * (1 - u_max) * (ln2_lo * (1 - u_max)) * (1 - u_max)
               <= f_pow F (f_log F 2) 2
               <= ln2_hi * (1 + u_max) * (ln2_hi * (1 + u_max)) * (1 + u_max)).
  { apply (rel_err_between u u_max _ (powerRZ (f_log F 2) 2)); try lra.
    - apply (acc_pow u F Hacc).
    - apply Rmult_le_pos; lra. }
  assert (HPpos : 0 < ln2_lo * (1 - u_max) * (ln2_lo * (1 - u_max)) * (1 - u_max)).
  { repeat apply Rmult_lt_0_compat; lra. }
  assert (HNpos : 0 <= IZR n * (1 - u_max) * (b1 * (1 - u_max)) * (1 - u_max)).
  { repeat apply Rmult_le_pos; lra. }
  assert (HD := div_between _ _ _ _ _ _ HNpos HPpos HN HP).
  assert (Hne : f_pow F (f_log F 2) 2 <> 0) by lra.
  unfold q_lo, q_hi.
  apply (rel_err_between u u_max _ _ _ _ (acc_div u F Hacc _ _ Hne)); try lra.
  apply Rmult_le_pos; [assumption |].
  left. apply Rinv_0_lt_compat. lra.
Qed.

Lemma m_of_eq (n : Z) (x b1 b2 : R) (m : Z) :
  (0 < n)%Z -> 0 < x -> 0 < b1 -> b1 <= - ln x <= b2 ->
  IZR m - 1 < q_lo (IZR n) b1 -> q_hi (IZR n) b2 <= IZR m ->
  m_of F n x = m.
Proof.
  intros Hn Hx Hb1 Hb Hlo Hhi. unfold m_of. apply math_ceil_unique.
  destruct (quotient_between n x b1 b2 Hn Hx Hb1 Hb). lra.
Qed.

Lemma product_between (m n : Z) :
  (0 < n)%Z -> (0 < m)%Z ->
  r_lo (IZR m) (IZR n)
  <= f_mul F (f_truediv F m n) (f_log F 2)
  <= r_hi (IZR m) (IZR n).
Proof.
  intros Hn Hmpos. assert (Hm := u_max_small).
  assert (Hq : 0 < IZR m / IZR n).
  { apply Rdiv_lt_0_compat; apply IZR_lt; assumption. }
  assert (HD : IZR m / IZR n * (1 - u_max) <= f_truediv F m n
               <= IZR m / IZR n * (1 + u_max)).
  { apply (rel_err_between u u_max _ (IZR m / IZR n)); try lra.
    apply (acc_truediv u F Hacc). lia. }
  assert (H2 := f_log_2_between).
  assert (Hlo2 : 0 < ln2_lo * (1 - u_max)) by (unfold ln2_lo; nra).
  assert (HDlo : 0 <= IZR m / IZR n * (1 - u_max)) by (apply Rmult_le_pos; lra).
  assert (HM := mult_between _ _ _ _ _ _ HDlo (Rlt_le _ _ Hlo2) HD H2).
  unfold r_lo, r_hi.
  apply (rel_err_between u u_max _ _ _ _ (acc_mul u F Hacc _ _)); try lra.
  apply Rmult_le_pos; lra.
Qed.

Lemma k_of_eq (n : Z) (x : R) (m k : Z) :
  (0 < n)%Z -> (0 < m)%Z -> m_of F n x = m ->
  IZR k - 1 < r_lo (IZR m) (IZR n) -> r_hi (IZR m) (IZR n) <= IZR k ->
  k_of F n x = k.
Proof.
  intros Hn Hm Em Hlo Hhi. unfold k_of. rewrite Em. apply math_ceil_unique.
  destruct (product_between m n Hn Hm). lra.
Qed.

End Derivation.

(** ** The derived parameters and the exact formulas *)

Section NearExact.
Variables (F : FloatOps) (u : R).
Hypothesis Hacc : accurate u F.
Hypothesis Hu : 0 <= u < 1.

Lemma rel_err_near a x :
  rel_err u a x -> 0 <= x -> x * (1 - u) <= a <= x * (1 + u).
Proof.
  intros H Hx.
  apply (rel_err_between u u a x x x H); lra.
Qed.

(** The float quotient of line 25 against the exact quotient: seven
    roundings, four that can raise it and three that can lower it, or the
    other way round. *)
Lemma quotient_near (n : Z) (x : R) :
  (0 < n)%Z -> 0 < x < 1 ->
  - IZR n * ln x / (ln 2) ^ 2 * ((1 - u) ^ 4 / (1 + u) ^ 3)
  <= f_div F (f_mul F (f_of_int F (- n)) (f_log F x)) (f_pow F (f_log F 2) 2)
  <= - IZR n * ln x / (ln 2) ^ 2 * ((1 + u) ^ 4 / (1 - u) ^ 3).
Proof.
  intros Hn Hx.
  assert (Hn' : 0 < IZR n) by (apply IZR_lt; assumption).
  assert (Hb : 0 < - ln x) by (assert (H := ln_neg x Hx); lra).
  assert (HL2 := ln_2_pos).
  set (b := - ln x) in *. set (L := ln 2) in *.
  assert (HI : IZR n * (1 - u) <= - f_of_int F (- n) <= IZR n * (1 + u)).
  { apply rel_err_near; [| lra].
    replace (IZR n) with (- IZR (- n)) by (rewrite opp_IZR; ring).
    apply rel_err_opp, (acc_of_int u F Hacc). }
  assert (HL : b * (1 - u) <= - f_log F x <= b * (1 + u)).
  { apply rel_err_near; [| lra].
    apply rel_err_opp, (acc_log u F Hacc). lra. }
  assert (HIL : IZR n * (1 - u) * (b * (1 - u))
                <= f_of_int F (- n) * f_log F x
                <= IZR n * (1 + u) * (b * (1 + u))).
  { replace (f_of_int F (- n) * f_log F x)
      with (- f_of_int F (- n) * - f_log F x) by ring.
    apply mult_between; try assumption; nra. }
  assert (HILpos : 0 <= IZR n * (1 - u) * (b * (1 - u))).
  { apply Rmult_le_pos; nra. }
  assert (HN : IZR n * (1 - u) * (b * (1 - u)) * (1 - u)
               <= f_mul F (f_of_int F (- n)) (f_log F x)
               <= IZR n * (1 + u) * (b * (1 + u)) * (1 + u)).
  { apply (rel_err_between u u _ (f_of_int F (- n) * f_log F x)); try lra.
    apply (acc_mul u F Hacc). }
  assert (H2 : L * (1 - u) <= f_log F 2 <= L * (1 + u)).
  { apply rel_err_near; [| lra]. apply (acc_log u F Hacc). lra. }
  assert (Hlo2 : 0 < L * (1 - u)) by nra.
  assert (HP2 : L * (1 - u) * (L * (1 - u))
                <= powerRZ (f_log F 2) 2
                <= L * (1 + u) * (L * (1 + u))).
  { replace (powerRZ (f_log F 2) 2) with (f_log F 2 * f_log F 2) by (simpl; ring).
    apply mult_between; lra. }
  assert (HP2pos : 0 < L * (1 - u) * (L * (1 - u))) by nra.
  assert (HP : L * (1 - u) * (L * (1 - u)) * (1 - u)
               <= f_pow F (f_log F 2) 2
               <= L * (1 + u) * (L * (1 + u)) * (1 + u)).
  { apply (rel_err_between u u _ (powerRZ (f_log F 2) 2)); try lra.
    apply (acc_pow u F Hacc). }
  assert (HPpos : 0 < L * (1 - u) * (L * (1 - u)) * (1 - u)) by nra.
  assert (HNpos : 0 <= IZR n * (1 - u) * (b * (1 - u)) * (1 - u)).
  { apply Rmult_le_pos; lra. }
  assert (HD := div_between _ _ _ _ _ _ HNpos HPpos HN HP).
  assert (Hne : f_pow F (f_log F 2) 2 <> 0) by lra.
  assert (HDpos : 0 <= IZR n * (1 - u) * (b * (1 - u)) * (1 - u)
                       / (L * (1 + u) * (L * (1 + u)) * (1 + u))).
  { apply Rmult_le_pos; [assumption | left; apply Rinv_0_lt_compat; nra]. }
  assert (Hu0 : 0 <= u <= u) by lra. assert (Hu1 : u <= 1) by lra.
  assert (HQ := rel_err_between u u _ _ _ _ (acc_div u F Hacc _ _ Hne)
                  Hu0 Hu1 HDpos HD).
  clear - HQ HL2 Hu. subst b L.
  replace (- IZR n * ln x / (ln 2) ^ 2 * ((1 - u) ^ 4 / (1 + u) ^ 3))
    with (IZR n * (1 - u) * (- ln x * (1 - u)) * (1 - u)
          / (ln 2 * (1 + u) * (ln 2 * (1 + u)) * (1 + u)) * (1 - u))
    by (field; lra).
  replace (- IZR n * ln x / (ln 2) ^ 2 * ((1 + u) ^ 4 / (1 - u) ^ 3))
    with (IZR n * (1 + u) * (- ln x * (1 + u)) * (1 + u)
          / (ln 2 * (1 - u) * (ln 2 * (1 - u)) * (1 - u)) * (1 + u))
    by (field; lra).
  exact HQ.
Qed.

(** The float product of line 26 against the exact product: three
    roundings. *)
Lemma product_near (m n : Z) :
  (0 < n)%Z -> (0 < m)%Z ->
  IZR m / IZR n * ln 2 * (1 - u) ^ 3
  <= f_mul F (f_truediv F m n) (f_log F 2)
  <= IZR m / IZR n * ln 2 * (1 + u) ^ 3.
Proof.
  intros Hn Hmpos.
  assert (Hq : 0 < IZR m / IZR n).
  { apply Rdiv_lt_0_compat; apply IZR_lt; assumption. }
  assert (HL2 := ln_2_pos).
  assert (HD : IZR m / IZR n * (1 - u) <= f_truediv F m n
               <= IZR m / IZR n * (1 + u)).
  { apply rel_err_near; [| lra]. apply (acc_truediv u F Hacc). lia. }
  assert (H2 : ln 2 * (1 - u) <= f_log F 2 <= ln 2 * (1 + u)).
  { apply rel_err_near; [| lra]. apply (acc_log u F Hacc). lra. }
  assert (HDlo : 0 <= IZR m / IZR n * (1 - u)) by (apply Rmult_le_pos; lra).
  assert (Hlo2 : 0 <= ln 2 * (1 - u)) by (apply Rmult_le_pos; lra).
  assert (HM := mult_between _ _ _ _ _ _ HDlo Hlo2 HD H2).
  assert (HMpos : 0 <= IZR m / IZR n * (1 - u) * (ln 2 * (1 - u)))
    by (apply Rmult_le_pos; assumption).
  assert (Hu0 : 0 <= u <= u) by lra. assert (Hu1 : u <= 1) by lra.
  assert (HR := rel_err_between u u _ _ _ _ (acc_mul u F Hacc _ _)
                  Hu0 Hu1 HMpos HM).
  replace (IZR m / IZR n * ln 2 * (1 - u) ^ 3)
    with (IZR m / IZR n * (1 - u) * (ln 2 * (1 - u)) * (1 - u)) by ring.
  replace (IZR m / IZR n * ln 2 * (1 + u) ^ 3)
    with (IZR m / IZR n * (1 + u) * (ln 2 * (1 + u)) * (1 + u)) by ring.
  exact HR.
Qed.

End NearExact.

(** ** Double precision on line 25, at one input *)

(** The polynomials in Horner form, and their fixed-point bounds. *)
Lemma exp_poly_horner x (k i : nat) :
  exp_poly x (i + k)
  = exp_poly x i + exp_term x i * (horner x (Z.of_nat (S i)) k - 1).
Proof.
  revert i. induction k as [|k IH]; intros i.
  - rewrite Nat.add_0_r. simpl horner. ring.
  - replace (i + S k)%nat with (S i + k)%nat by lia.
    rewrite IH. cbn [horner exp_poly].
    replace (Z.of_nat (S i) + 1)%Z with (Z.of_nat (S (S i))) by lia.
    change (exp_term x (S i)) with (exp_term x i * (- x) / IZR (Z.of_nat (S i))).
    field. apply not_0_IZR. lia.
Qed.

Lemma exp_poly_is_horner x n : exp_poly x n = horner x 1 n.
Proof.
  assert (H := exp_poly_horner x n 0).
  rewrite Nat.add_0_l in H. rewrite H. simpl exp_poly. simpl exp_term.
  change (Z.of_nat 1) with 1%Z. ring.
Qed.

Lemma IZR_div_floor (a b : Z) : (0 < b)%Z -> IZR (a / b) <= IZR a / IZR b.
Proof.
  intros Hb. assert (HR : 0 < IZR b) by (apply IZR_lt; assumption).
  apply Rmult_le_reg_r with (IZR b); [assumption |].
  unfold Rdiv. rewrite Rmult_assoc, Rinv_l, Rmult_1_r by lra.
  rewrite <- mult_IZR. apply IZR_le.
  rewrite Z.mul_comm. apply Z.mul_div_le. assumption.
Qed.

Lemma horner_bounds_sound (p s t : Z) (k : nat) (j : Z) :
  (0 < s)%Z -> (0 < t)%Z -> (0 <= p)%Z -> (0 < j)%Z ->
  IZR (fst (horner_bounds p s t j k)) / IZR t
  <= horner (IZR p / IZR s) j k
  <= IZR (snd (horner_bounds p s t j k)) / IZR t.
Proof.
  intros Hs Ht Hp. revert j. induction k as [|k IH]; intros j Hj.
  - simpl. unfold Rdiv. rewrite Rinv_r; [lra |]. apply not_0_IZR. lia.
  - cbn [horner horner_bounds fst snd].
    destruct (IH (j + 1)%Z ltac:(lia)) as [Hlo Hhi].
    set (lu := horner_bounds p s t (j + 1) k) in *.
    set (h := horner (IZR p / IZR s) (j + 1) k) in *.
    assert (HRs : 0 < IZR s) by (apply IZR_lt; assumption).
    assert (HRt : 0 < IZR t) by (apply IZR_lt; assumption).
    assert (HRj : 0 < IZR j) by (apply IZR_lt; assumption).
    assert (HRp : 0 <= IZR p) by (apply IZR_le; assumption).
    assert (Hsj : (0 < s * j)%Z) by lia.
    assert (Hc : 0 <= IZR p / IZR s / IZR j).
    { unfold Rdiv. repeat apply Rmult_le_pos; try assumption;
        left; apply Rinv_0_lt_compat; assumption. }
    assert (H1 := IZR_div_floor (- (p * snd lu)) (s * j) Hsj).
    assert (H2 := IZR_div_floor (p * fst lu) (s * j) Hsj).
    rewrite opp_IZR, !mult_IZR in H1. rewrite !mult_IZR in H2.
    rewrite plus_IZR, minus_IZR.
    assert (E1 : - (IZR p * IZR (snd lu)) / (IZR s * IZR j)
                 = - (IZR p / IZR s / IZR j * IZR (snd lu))) by (field; lra).
    assert (E2 : IZR p * IZR (fst lu) / (IZR s * IZR j)
                 = IZR p / IZR s / IZR j * IZR (fst lu)) by (field; lra).
    rewrite E1 in H1. rewrite E2 in H2.
    assert (Hlo' : IZR (fst lu) <= h * IZR t).
    { apply Rmult_le_reg_r with (/ IZR t); [apply Rinv_0_lt_compat; assumption |].
      rewrite Rmult_assoc, Rinv_r, Rmult_1_r by lra. exact Hlo. }
    assert (Hhi' : h * IZR t <= IZR (snd lu)).
    { apply Rmult_le_reg_r with (/ IZR t); [apply Rinv_0_lt_compat; assumption |].
      rewrite Rmult_assoc, Rinv_r, Rmult_1_r by lra. exact Hhi. }
    set (c := IZR p / IZR s / IZR j) in *.
    assert (Hm1 : c * IZR (fst lu) <= c * (h * IZR t))
      by (apply Rmult_le_compat_l; assumption).
    assert (Hm2 : c * (h * IZR t) <= c * IZR (snd lu))
      by (apply Rmult_le_compat_l; assumption).
    split.
    + apply Rmult_le_reg_r with (IZR t); [assumption |].
      unfold Rdiv. rewrite Rmult_assoc, Rinv_l, Rmult_1_r by lra.
      lra.
    + apply Rmult_le_reg_r with (IZR t); [assumption |].
      unfold Rdiv. rewrite Rmult_assoc, Rinv_l, Rmult_1_r by lra.
      lra.
Qed.

Lemma exp_poly_bounds (p s t : Z) (n : nat) :
  (0 < s)%Z -> (0 < t)%Z -> (0 <= p)%Z ->
  IZR (fst (horner_bounds p s t 1 n)) / IZR t
  <= exp_poly (IZR p / IZR s) n
  <= IZR (snd (horner_bounds p s t 1 n)) / IZR t.
Proof.
  intros Hs Ht Hp. rewrite exp_poly_is_horner.
  apply horner_bounds_sound; assumption || lia.
Qed.

Ltac bound_exp_poly t :=
  match goal with
  | |- _ < exp_poly (IZR ?p / IZR ?s) ?n =>
      let n' := eval vm_compute in n in
      let v := eval vm_compute in (fst (horner_bounds p s t 1 n')) in
      apply Rlt_le_trans with (IZR v / IZR t);
      [| exact (proj1 (exp_poly_bounds p s t n' eq_refl eq_refl
                         ltac:(discriminate)))]
  | |- exp_poly (IZR ?p / IZR ?s) ?n < _ =>
      let n' := eval vm_compute in n in
      let v := eval vm_compute in (snd (horner_bounds p s t 1 n')) in
      apply Rle_lt_trans with (IZR v / IZR t);
      [exact (proj2 (exp_poly_bounds p s t n' eq_refl eq_refl
                       ltac:(discriminate))) |]
  end.

(** Twenty digits of [ln 2] and of the logarithm that [ln fpr_d] reduces
    to. *)
Lemma ln2_bounds_20 :
  69314718055994530941 / 100000000000000000000 < ln 2
  < 69314718055994530942 / 100000000000000000000.
Proof.
  split.
  - apply (ln_lower _ _ 9); [lra | lra |].
    bound_exp_poly 10000000000000000000000000%Z. lra.
  - apply (ln_upper _ _ 10); [lra | lra |].
    bound_exp_poly 10000000000000000000000000%Z. lra.
Qed.

Lemma ln_ratio_bounds :
  32282352791117123265 / 100000000000000000000
  < ln (9007199254740992 / 6522127633450359)
  < 32282352791117123266 / 100000000000000000000.
Proof.
  split.
  - apply (ln_lower _ _ 7); [lra | lra |].
    bound_exp_poly 10000000000000000000000000%Z. lra.
  - apply (ln_upper _ _ 8); [lra | lra |].
    bound_exp_poly 10000000000000000000000000%Z. lra.
Qed.

(** [fpr_d] is [1 / (8 * y)] for a [y] between 1 and [e]. *)
Lemma ln_fpr_d :
  ln fpr_d = - (ln 2 + ln 2 + ln 2 + ln (9007199254740992 / 6522127633450359)).
Proof.
  unfold fpr_d.
  replace (6522127633450359 / 72057594037927936)
    with (/ (2 * 2 * 2 * (9007199254740992 / 6522127633450359))) by (field; lra).
  rewrite ln_Rinv by lra. rewrite !ln_mult by lra. reflexivity.
Qed.

Lemma rel_err_intro u a x :
  0 <= x -> x * (1 - u) <= a <= x * (1 + u) -> rel_err u a x.
Proof.
  intros Hx H. unfold rel_err. rewrite (Rabs_pos_eq x) by assumption.
  apply Rabs_le. lra.
Qed.

Lemma half_ulp_small : 0 <= / 2 ^ 53 < 1.
Proof. lra. Qed.

Lemma log_fpr_d_accurate : rel_err (/ 2 ^ 53) log_fpr_d (ln fpr_d).
Proof.
  assert (H2 := ln2_bounds_20). assert (Hc := ln_ratio_bounds).
  rewrite ln_fpr_d. unfold log_fpr_d.
  apply rel_err_opp, rel_err_intro; lra.
Qed.

Lemma log_2_d_accurate : rel_err (/ 2 ^ 53) log_2_d (ln 2).
Proof.
  assert (H2 := ln2_bounds_20). unfold log_2_d.
  apply rel_err_intro; lra.
Qed.

Lemma pow_d_accurate : rel_err (/ 2 ^ 53) pow_d (powerRZ log_2_d 2).
Proof.
  replace (powerRZ log_2_d 2) with (log_2_d * log_2_d) by (simpl; ring).
  unfold pow_d, log_2_d. apply rel_err_intro; lra.
Qed.

Lemma quotient_d_accurate : rel_err (/ 2 ^ 53) 5 (- log_fpr_d / pow_d).
Proof.
  unfold pow_d, log_fpr_d.
  replace (- - (5409420036127609 / 2251799813685248)
           / (4327536028902087 / 9007199254740992))
    with (21637680144510436 / 4327536028902087) by (field; lra).
  apply rel_err_intro; lra.
Qed.

(** These operations have the relative error of double precision. *)
Lemma line_25_doubles_accurate : accurate (/ 2 ^ 53) line_25_doubles.
Proof.
  assert (Hu := half_ulp_small).
  split; simpl; intros.
  - reflexivity.
  - apply rel_err_exact; lra.
  - apply rel_err_exact; lra.
  - destruct (Req_dec_T x (- log_fpr_d)) as [-> |]; [| apply rel_err_exact; lra].
    destruct (Req_dec_T y pow_d) as [-> |]; [| apply rel_err_exact; lra].
    apply quotient_d_accurate.
  - apply rel_err_exact; lra.
  - destruct (Req_dec_T x log_2_d) as [-> |]; [| apply rel_err_exact; lra].
    destruct (k =? 2)%Z eqn:E; [| apply rel_err_exact; lra].
    apply Z.eqb_eq in E. subst k. apply pow_d_accurate.
  - apply rel_err_exact; lra.
  - destruct (Req_dec_T x fpr_d) as [-> |]; [apply log_fpr_d_accurate |].
    destruct (Req_dec_T x 2) as [-> |]; [apply log_2_d_accurate |].
    apply rel_err_exact; lra.
  - apply rel_err_exact; lra.
Qed.

Lemma fpr_d_unit : 0 < fpr_d < 1.
Proof. unfold fpr_d. lra. Qed.

Lemma m_of_line_25_doubles : m_of line_25_doubles 1 fpr_d = 5%Z.
Proof.
  unfold m_of. simpl.
  destruct (Req_dec_T fpr_d fpr_d) as [_ | H]; [| contradiction].
  destruct (Req_dec_T 2 fpr_d) as [H | _]; [unfold fpr_d in H; lra |].
  destruct (Req_dec_T 2 2) as [_ | H]; [| contradiction].
  destruct (Req_dec_T log_2_d log_2_d) as [_ | H]; [| contradiction].
  destruct (Req_dec_T _ (- log_fpr_d)) as [_ | H];
    [| exfalso; apply H; rewrite opp_IZR; lra].
  destruct (Req_dec_T pow_d pow_d) as [_ | H]; [| contradiction].
  apply math_ceil_unique. lra.
Qed.

(** The ceiling of the exact quotient at the same input. *)
Lemma exact_quotient_fpr_d : math_ceil (- IZR 1 * ln fpr_d / (ln 2) ^ 2) = 6%Z.
Proof.
  assert (H2 := ln2_bounds_20). assert (Hc := ln_ratio_bounds).
  apply math_ceil_unique. rewrite ln_fpr_d.
  set (L := ln 2) in *. set (c := ln (9007199254740992 / 6522127633450359)) in *.
  assert (HL2 : 0 < L ^ 2) by nra.
  assert (Hsq : L * L <= (69314718055994530941 / 100000000000000000000
                          + 69314718055994530942 / 100000000000000000000) * L
                         - 69314718055994530941 / 100000000000000000000
                           * (69314718055994530942 / 100000000000000000000)).
  { assert (H : 0 <= (69314718055994530942 / 100000000000000000000 - L)
                     * (L - 69314718055994530941 / 100000000000000000000)).
    { apply Rmult_le_pos; lra. }
    lra. }
  assert (Hsq' : 48 / 100 <= L * L) by nra.
  split.
  - apply Rmult_lt_reg_r with (L ^ 2); [assumption |].
    unfold Rdiv. rewrite Rmult_assoc, Rinv_l by lra. lra.
  - apply Rmult_le_reg_r with (L ^ 2); [assumption |].
    unfold Rdiv. rewrite Rmult_assoc, Rinv_l by lra. lra.
Qed.

(** ** The regression table *)

Section RegressionTable.
Variables (F : FloatOps) (u : R).
Hypothesis Hacc : accurate u F.
Hypothesis Hu : 0 <= u <= u_max.

Lemma neg_ln_literal c x l1 l2 :
  0 < c -> float_literal u c x -> l1 <= - ln c <= l2 ->
  0 < x < c * (1 + / 1000000000)
  /\ l1 - / 1000000000 <= - ln x <= l2 + 2 * / 1000000000.
Proof.
  intros Hc Hx Hl. assert (Hm := u_max_small).
  destruct (ln_literal u c x Hc ltac:(lra) Hx) as [Hpos Hln].
  split; [| lra].
  split; [assumption |].
  unfold float_literal in Hx. rewrite (Rabs_pos_eq c) in Hx by lra.
  assert (H1 := Rle_abs (x - c)). nra.
Qed.

Ltac table_bounds :=
  unfold q_lo, q_hi, r_lo, r_hi, u_max, ln2_lo, ln2_hi; lra.

Lemma table_100 fpr :
  float_literal u (1 / 100) fpr -> m_of F 100 fpr = 959%Z /\ k_of F 100 fpr = 7%Z.
Proof.
  intros Hlit. assert (H10 := ln10_bounds).
  destruct (neg_ln_literal (1 / 100) fpr (2 * (230258509 / 100000000))
              (2 * (230258513 / 100000000)) ltac:(lra) Hlit) as [Hx Hln].
  { rewrite ln_inv_100. lra. }
  assert (Em : m_of F 100 fpr = 959%Z).
  { eapply (m_of_eq F u Hacc Hu 100 fpr); [lia | lra | | exact Hln | |];
      table_bounds. }
  split; [assumption |].
  apply (k_of_eq F u Hacc Hu 100 fpr 959 7); [lia | lia | exact Em | |];
    table_bounds.
Qed.

Lemma table_1000 fpr :
  float_literal u (1 / 100) fpr -> m_of F 1000 fpr = 9586%Z /\ k_of F 1000 fpr = 7%Z.
Proof.
  intros Hlit. assert (H10 := ln10_bounds).
  destruct (neg_ln_literal (1 / 100) fpr (2 * (230258509 / 100000000))
              (2 * (230258513 / 100000000)) ltac:(lra) Hlit) as [Hx Hln].
  { rewrite ln_inv_100. lra. }
  assert (Em : m_of F 1000 fpr = 9586%Z).
  { eapply (m_of_eq F u Hacc Hu 1000 fpr); [lia | lra | | exact Hln | |];
      table_bounds. }
  split; [assumption |].
  apply (k_of_eq F u Hacc Hu 1000 fpr 9586 7); [lia | lia | exact Em | |];
    table_bounds.
Qed.

Lemma table_10000 fpr :
  float_literal u (1 / 1000) fpr ->
  m_of F 10000 fpr = 143776%Z /\ k_of F 10000 fpr = 10%Z.
Proof.
  intros Hlit. assert (H10 := ln10_bounds).
  destruct (neg_ln_literal (1 / 1000) fpr (3 * (230258509 / 100000000))
              (3 * (230258513 / 100000000)) ltac:(lra) Hlit) as [Hx Hln].
  { rewrite ln_inv_1000. lra. }
  assert (Em : m_of F 10000 fpr = 143776%Z).
  { eapply (m_of_eq F u Hacc Hu 10000 fpr); [lia | lra | | exact Hln | |];
      table_bounds. }
  split; [assumption |].
  apply (k_of_eq F u Hacc Hu 10000 fpr 143776 10); [lia | lia | exact Em | |];
    table_bounds.
Qed.

Lemma table_10 fpr :
  float_literal u (1 / 2) fpr -> m_of F 10 fpr = 15%Z /\ k_of F 10 fpr = 2%Z.
Proof.
  intros Hlit. assert (H2 := ln2_bounds).
  destruct (neg_ln_literal (1 / 2) fpr ln2_lo ln2_hi ltac:(lra) Hlit) as [Hx Hln].
  { rewrite ln_half. unfold ln2_lo, ln2_hi. lra. }
  assert (Em : m_of F 10 fpr = 15%Z).
  { eapply (m_of_eq F u Hacc Hu 10 fpr); [lia | lra | | exact Hln | |];
      table_bounds. }
  split; [assumption |].
  apply (k_of_eq F u Hacc Hu 10 fpr 15 2); [lia | lia | exact Em | |];
    table_bounds.
Qed.

(** The capacity 1 with the target rate one half: two bits, two hash
    functions. *)
Lemma table_1 fpr :
  float_literal u (1 / 2) fpr -> m_of F 1 fpr = 2%Z /\ k_of F 1 fpr = 2%Z.
Proof.
  intros Hlit. assert (H2 := ln2_bounds).
  destruct (neg_ln_literal (1 / 2) fpr ln2_lo ln2_hi ltac:(lra) Hlit) as [Hx Hln].
  { rewrite ln_half. unfold ln2_lo, ln2_hi. lra. }
  assert (Em : m_of F 1 fpr = 2%Z).
  { eapply (m_of_eq F u Hacc Hu 1 fpr); [lia | lra | | exact Hln | |];
      table_bounds. }
  split; [assumption |].
  apply (k_of_eq F u Hacc Hu 1 fpr 2 2); [lia | lia | exact Em | |];
    table_bounds.
Qed.

End RegressionTable.

(** ** The exposed false-positive rate *)

Lemma exp_neg_1_lower : / 3 <= exp (- 1).
Proof.
  destruct (exp_neg_between 1 1 ltac:(lra)) as [H _].
  cbn [Nat.mul Nat.add] in H.
  replace (exp_poly 1 3) with (/ 3) in H; [assumption |].
  eval_exp_poly. lra.
Qed.

Lemma exp_neg_half_upper : exp (- (1 / 2)) <= 5 / 8.
Proof.
  destruct (exp_neg_between (1 / 2) 1 ltac:(lra)) as [_ H].
  cbn [Nat.mul Nat.add] in H.
  replace (exp_poly (1 / 2) 2) with (5 / 8) in H; [assumption |].
  eval_exp_poly. lra.
Qed.

Section TrueFpr.
Variables (F : FloatOps) (u : R).
Hypothesis Hacc : accurate u F.
Hypothesis Hu : 0 <= u <= u_max.

(** At capacity 1 and target one half the exposed rate is below 0.45. *)
Lemma true_fpr_1_half fpr :
  float_literal u (1 / 2) fpr -> true_fpr_of F 1 fpr < 45 / 100 /\ 45 / 100 < fpr.
Proof.
  intros Hlit. assert (Hm := u_max_small).
  destruct (table_1 F u Hacc Hu fpr Hlit) as [Em Ek].
  split.
  2:{ unfold float_literal in Hlit. rewrite (Rabs_pos_eq (1 / 2)) in Hlit by lra.
      assert (H := Rle_abs (- (fpr - 1 / 2))). rewrite Rabs_Ropp in H. lra. }
  unfold true_fpr_of. rewrite Ek, Em.
  change (Z.opp 2 * 1)%Z with (- 2)%Z.
  set (t := f_truediv F (- 2) 2).
  assert (Ht : - 1 - u_max <= t <= - (1 / 2)).
  { assert (H := acc_truediv u F Hacc (- 2) 2 ltac:(lia)). fold t in H.
    unfold rel_err in H.
    replace (IZR (- 2) / 2) with (- 1) in H by lra.
    assert (Habs : Rabs (- 1) = 1) by (unfold Rabs; destruct Rcase_abs; lra).
    rewrite Habs in H.
    assert (H1 := Rle_abs (t - - 1)).
    assert (H2 := Rle_abs (- (t - - 1))). rewrite Rabs_Ropp in H2. lra. }
  assert (He : / 3 * (1 - u_max) <= exp t <= 5 / 8).
  { split.
    - apply Rle_trans with (exp (- 1 - u_max)); [| apply exp_le_mono; lra].
      unfold Rminus. rewrite exp_plus.
      assert (H1 := exp_neg_1_lower). assert (H2 := exp_ineq1_le (- u_max)).
      assert (H3 := exp_pos (- 1)). nra.
    - apply Rle_trans with (exp (- (1 / 2))); [apply exp_le_mono; lra |].
      apply exp_neg_half_upper. }
  set (e := f_exp F t).
  assert (Hfe : / 3 * (1 - u_max) * (1 - u_max) <= e <= 5 / 8 * (1 + u_max)).
  { apply (rel_err_between u u_max _ (exp t)); try lra. apply (acc_exp u F Hacc). }
  set (d := f_sub F 1 e).
  assert (Hd : 36 / 100 * (1 - u_max) <= d <= 6667 / 10000 * (1 + u_max)).
  { apply (rel_err_between u u_max _ (1 - e)); try lra; [apply (acc_sub u F Hacc) |].
    unfold u_max in *. nra. }
  assert (Hp : 0 * (1 - u_max) <= f_pow F d 2
               <= 6668 / 10000 * (6668 / 10000) * (1 + u_max)).
  { apply (rel_err_between u u_max _ (powerRZ d 2)); try lra;
      [apply (acc_pow u F Hacc) |].
    replace (powerRZ d 2) with (d * d) by (simpl; ring).
    unfold u_max in *. nra. }
  unfold u_max in *. lra.
Qed.

End TrueFpr.

(** ** Insertion and membership on a constructed filter *)

Local Open Scope Z_scope.

Section Membership.
Context {A : Type} `{HA : Hashable A} `{HS : Hashable (A * string)}.

Lemma forallb_bit_at bits js :
  forallb (bit_at bits) js = true
  <-> forall j, j ∈ js -> bits !! Z.to_nat j = Some true.
Proof.
  rewrite forallb_forall. split.
  - intros H j Hj. apply bit_at_true, H, list_elem_of_In, Hj.
  - intros H j Hj. apply bit_at_true, H, list_elem_of_In, Hj.
Qed.

Lemma hash_index_in_array s m k bits (x : A) j :
  wf s m k bits -> j ∈ (hash_index m x <$> range k) ->
  (Z.to_nat j < length bits)%nat.
Proof.
  intros Hwf Hj. apply list_elem_of_fmap in Hj as (i & -> & _).
  assert (Hb := hash_index_bound m x i (wf_pos _ _ _ _ Hwf)).
  assert (Hl := wf_len _ _ _ _ Hwf). lia.
Qed.

Lemma contains_after_add s m k bits (x : A) :
  wf s m k bits -> __contains__ x (snd (add x s)) = (Ok true, snd (add x s)).
Proof.
  intros Hwf.
  rewrite (contains_run _ m k _ x (add_wf s m k bits x Hwf)).
  f_equal. f_equal. apply forallb_bit_at. intros j Hj.
  apply set_true_hit; [assumption |].
  apply (hash_index_in_array s m k bits x j Hwf Hj).
Qed.

Lemma add_twice s m k bits (x : A) :
  wf s m k bits -> add x (snd (add x s)) = (Ok tt, snd (add x s)).
Proof.
  intros Hwf.
  rewrite (add_run _ m k _ x (add_wf s m k bits x Hwf)).
  rewrite set_true_idempotent.
  rewrite (add_run s m k bits x Hwf). reflexivity.
Qed.

Lemma contains_add_all s m k bits (x : A) (ys : list A) :
  wf s m k bits -> fst (__contains__ x s) = Ok true ->
  fst (__contains__ x (add_all ys s)) = Ok true.
Proof.
  intros Hwf Hin.
  rewrite (contains_run s m k bits x Hwf) in Hin. simpl in Hin.
  assert (Hall : forallb (bit_at bits) (hash_index m x <$> range k) = true)
    by congruence.
  assert (Hset := proj1 (forallb_bit_at _ _) Hall).
  destruct (add_all_wf ys s m k bits Hwf) as (bits' & Hwf' & Hkeep).
  rewrite (contains_run _ m k bits' x Hwf'). simpl. f_equal.
  apply forallb_bit_at. intros j Hj. apply Hkeep, Hset, Hj.
Qed.

End Membership.

(** * Examples *)

(** ** The small filter *)

(** It holds the element 1, whose indices are 1, 3 and 0, and not the
    element 2, whose three indices are all 2. *)
Example small_filter_hash_1 :
  map (fun i => fst (_hash (HA:=int_hash) (HS:=int_salt_hash) 1 i small_filter))
      [0; 1; 2; 3; -1]
  = [Ok 1; Ok 3; Ok 0; Raise ValueError; Raise ValueError].
Proof. reflexivity. Qed.

Example small_filter_contains_1 :
  fst (__contains__ (HA:=int_hash) (HS:=int_salt_hash) 1 small_filter) = Ok true.
Proof. reflexivity. Qed.

Example small_filter_contains_2 :
  fst (__contains__ (HA:=int_hash) (HS:=int_salt_hash) 2 small_filter) = Ok false.
Proof. reflexivity. Qed.

Example small_filter_add_2 :
  attr_bits (snd (add (HA:=int_hash) (HS:=int_salt_hash) 2 small_filter))
  = Some [true; true; true; true; false].
Proof. reflexivity. Qed.

(** A method called on an object that [__init__] has not completed. *)
Example contains_on_new_instance :
  fst (__contains__ (HA:=int_hash) (HS:=int_salt_hash) 1 new_instance)
  = Raise AttributeError.
Proof. reflexivity. Qed.

(** Python's indexing: [l[-1]] is the last entry and [l[len(l)]] raises. *)
Example list_getitem_negative : list_getitem [false; false; true] (-1) = Ok true.
Proof. reflexivity. Qed.

Example list_getitem_outside :
  list_getitem [false; false; true] 3 = Raise IndexError.
Proof. reflexivity. Qed.

(** ** The constructor on the invalid arguments of the test file *)

Example test_zero_n :
  BloomFilter exact_ops (PyInt 0) (PyFloat (FFinite (1 / 100))) = Raise ValueError.
Proof. apply BloomFilter_invalid. reflexivity. Qed.

Example test_negative_n :
  BloomFilter exact_ops (PyInt (-10)) (PyFloat (FFinite (1 / 100))) = Raise ValueError.
Proof. apply BloomFilter_invalid. reflexivity. Qed.

Example test_invalid_fpr_0 :
  BloomFilter exact_ops (PyInt 100) (PyInt 0) = Raise ValueError.
Proof. apply BloomFilter_invalid. reflexivity. Qed.

Example test_invalid_fpr_1 :
  BloomFilter exact_ops (PyInt 100) (PyInt 1) = Raise ValueError.
Proof. apply BloomFilter_invalid. reflexivity. Qed.

Example test_invalid_fpr_negative :
  BloomFilter exact_ops (PyInt 100) (PyFloat (FFinite (- (1 / 10)))) = Raise ValueError.
Proof.
  apply BloomFilter_invalid, valid_args_false. right.
  intros (r & E & Hr). inversion E. subst r. lra.
Qed.

Example test_invalid_fpr_above_1 :
  BloomFilter exact_ops (PyInt 100) (PyFloat (FFinite (3 / 2))) = Raise ValueError.
Proof.
  apply BloomFilter_invalid, valid_args_false. right.
  intros (r & E & Hr). inversion E. subst r. lra.
Qed.

(** A capacity that is a float, and a rate that is not a number. *)
Example float_capacity :
  BloomFilter exact_ops (PyFloat (FFinite 100)) (PyFloat (FFinite (1 / 100)))
  = Raise ValueError.
Proof.
  apply BloomFilter_invalid, valid_args_false. left.
  intros (z & E & _). discriminate.
Qed.

Example nan_rate :
  BloomFilter exact_ops (PyInt 100) (PyFloat FNaN) = Raise ValueError.
Proof. apply BloomFilter_invalid. reflexivity. Qed.

(** * The properties of the specification *)

(** ** The methods *)

Lemma small_filter_wf : wf small_filter 5 3 [true; true; false; true; false].
Proof. split; reflexivity. Qed.

Lemma exact_accurate_0 : accurate 0 exact_ops.
Proof. apply exact_ops_accurate. lra. Qed.

Lemma BloomFilter_10_half :
  BloomFilter exact_ops (PyInt 10) (PyFloat (FFinite (1 / 2)))
  = Ok (built exact_ops 10 (1 / 2)).
Proof. apply (BloomFilter_valid exact_ops 0 10 (1 / 2) exact_accurate_0); lra || lia. Qed.

Section Claims.
Context {A : Type} `{HA : Hashable A} `{HS : Hashable (A * string)}.

(** C1: no false negatives.  On every filter that the constructor built
    and that any sequence of calls of [add] has grown, [add x] returns
    normally and the test [x in filter] evaluated right after it returns
    [True].  The floating-point operations of the constructor are any
    operations of relative error [u < 1]. *)
Theorem no_false_negatives (F : FloatOps) (u : R) (s : instance) (x : A) :
  accurate u F -> (0 <= u < 1)%R -> reachable F s ->
  fst (add x s) = Ok tt
  /\ fst (__contains__ x (snd (add x s))) = Ok true.
Proof.
  intros Hacc Hu Hr.
  destruct (reachable_wf F u s Hacc Hu Hr) as (m & k & bits & Hwf & _).
  split.
  - rewrite (add_run s m k bits x Hwf). reflexivity.
  - rewrite (contains_after_add s m k bits x Hwf). reflexivity.
Qed.

(** C3: the contract of [_hash].  On a filter with [m] bits and [k] hash
    functions, [_hash x i] raises exactly when [i < 0] or [i >= k], and what it
    raises is [ValueError]; for [0 <= i < k] it returns
    [(h1 + i * h2) mod m] with [h1 = hash(x) mod m] and
    [h2 = hash((x, "salt")) mod m]. *)
Theorem hash_contract (s : instance) (m k : Z) (bits : list bool) (x : A) (i : Z) :
  wf s m k bits ->
  (forall e, fst (_hash x i s) = Raise e <-> e = ValueError /\ (i < 0 \/ i >= k))
  /\ (0 <= i < k ->
      let h1 := py_hash x mod m in
      let h2 := py_hash (x, "salt"%string) mod m in
      fst (_hash x i s) = Ok ((h1 + i * h2) mod m)).
Proof.
  intros Hwf. split.
  - intros e. destruct (Z_lt_ge_dec i 0) as [Hneg | Hnn].
    + rewrite (hash_out_of_range s m k bits x i Hwf) by lia. simpl.
      split; [intros H; inversion H; split; [reflexivity | lia] | intros [-> _]; reflexivity].
    + destruct (Z_lt_ge_dec i k) as [Hlt | Hge].
      * rewrite (hash_in_range s m k bits x i Hwf) by lia. simpl.
        split; [discriminate | intros [_ Hi]; lia].
      * rewrite (hash_out_of_range s m k bits x i Hwf) by lia. simpl.
        split; [intros H; inversion H; split; [reflexivity | lia] | intros [-> _]; reflexivity].
  - intros Hi. simpl. rewrite (hash_in_range s m k bits x i Hwf Hi). reflexivity.
Qed.

(** C6: idempotence of insertion.  On a filter, a second [add x] right
    after the first returns normally and leaves the object, and so its bit
    array, as the first left it. *)
Theorem add_idempotent (s : instance) (m k : Z) (bits : list bool) (x : A) :
  wf s m k bits ->
  fst (add x (snd (add x s))) = Ok tt
  /\ snd (add x (snd (add x s))) = snd (add x s)
  /\ attr_bits (snd (add x (snd (add x s)))) = attr_bits (snd (add x s)).
Proof.
  intros Hwf. rewrite (add_twice s m k bits x Hwf). simpl. auto.
Qed.

(** C7: monotonicity of membership.  If the test for [x] returns [True] on
    a filter, it returns [True] after any further calls of [add], for any
    elements. *)
Theorem membership_monotone (s : instance) (m k : Z) (bits : list bool)
    (x : A) (ys : list A) :
  wf s m k bits ->
  fst (__contains__ x s) = Ok true ->
  fst (__contains__ x (add_all ys s)) = Ok true.
Proof. apply contains_add_all. Qed.

(** C8: the bit array only grows.  Whatever the object, [add] leaves the
    length of the bit array as it was and every bit that was set stays set;
    the membership test leaves the whole object as it was. *)
Theorem bits_never_cleared (s : instance) (x : A) :
  (forall bits, attr_bits s = Some bits ->
     exists bits', attr_bits (snd (add x s)) = Some bits'
                   /\ length bits' = length bits
                   /\ forall q : nat, bits !! q = Some true -> bits' !! q = Some true)
  /\ snd (__contains__ x s) = s.
Proof. split; [apply add_grows | apply contains_state]. Qed.

(** C10: accesses to the bit array are in bounds.  On every filter that
    the constructor built and calls of [add] have grown, [m > 0], the bit
    array has [m] entries, [_hash x i] returns an index in [[0, m)] for
    [0 <= i < k], and neither [add] nor the membership test raises. *)
Theorem accesses_in_bounds (F : FloatOps) (u : R) (s : instance) :
  accurate u F -> (0 <= u < 1)%R -> reachable F s ->
  exists m k bits,
    attr_m s = Some m /\ attr_k s = Some k /\ attr_bits s = Some bits
    /\ 0 < m /\ Z.of_nat (length bits) = m
    /\ (forall (x : A) i, 0 <= i < k ->
          exists v, _hash x i s = (Ok v, s) /\ 0 <= v < Z.of_nat (length bits))
    /\ (forall x : A, fst (add x s) = Ok tt)
    /\ (forall x : A, exists b, fst (__contains__ x s) = Ok b).
Proof.
  intros Hacc Hu Hr.
  destruct (reachable_wf F u s Hacc Hu Hr) as (m & k & bits & Hwf & _).
  exists m, k, bits.
  assert (Hm := wf_m _ _ _ _ Hwf). assert (Hk := wf_k _ _ _ _ Hwf).
  assert (Hb := wf_bits _ _ _ _ Hwf). assert (Hpos := wf_pos _ _ _ _ Hwf).
  assert (Hlen := wf_len _ _ _ _ Hwf).
  repeat split; try assumption.
  - intros x i Hi. exists (hash_index m x i). split.
    + apply (hash_in_range s m k bits x i Hwf Hi).
    + rewrite Hlen. apply hash_index_bound. assumption.
  - intros x. rewrite (add_run s m k bits x Hwf). reflexivity.
  - intros x. rewrite (contains_run s m k bits x Hwf). eexists. reflexivity.
Qed.

End Claims.

(** ** The constructor *)


(** C5, as the code has it: [__init__] stores its two arguments, then
    validates them, then derives the rest.  When it raises [ValueError] the
    attributes [n] and [fpr] hold the arguments and none of [m], [k],
    [true_fpr] and [_bits] is set. *)
Theorem validation_precedes_derivation (F : FloatOps) (n fpr : pyval) (s : instance) :
  __init__ F n fpr new_instance = (Raise ValueError, s) ->
  attr_n s = Some n /\ attr_fpr s = Some fpr
  /\ attr_m s = None /\ attr_k s = None
  /\ attr_true_fpr s = None /\ attr_bits s = None.
Proof.
  intros H. destruct (valid_args n fpr) eqn:E.
  - apply valid_args_true in E as [(z & -> & Hz) (x & -> & Hx)].
    exfalso. apply (init_valid_no_ValueError F z x Hz Hx).
    rewrite H. reflexivity.
  - rewrite (init_invalid F n fpr E) in H. inversion H. repeat split.
Qed.

(** C2, as the code has it: the derived parameters.  Under floating-point
    operations of relative error [u <= 2 ^ -30], on every filter that the
    constructor returns, [m] is the ceiling of the float [q] that line 25
    computes and [k] the ceiling of the float [r] that line 26 computes;
    [q] is the exact quotient [- n * ln fpr / (ln 2) ^ 2] up to seven
    roundings and [r] the exact product [m / n * ln 2] up to three, so that
    with exact operations [m] and [k] are the ceilings of the exact values.
    With the literals [0.01], [0.001] and [0.5] read within the error [u],
    the four entries of the regression table hold. *)
Theorem parameter_derivation (F : FloatOps) (u : R) :
  accurate u F -> (0 <= u <= u_max)%R ->
  (forall n fpr s,
     BloomFilter F n fpr = Ok s ->
     exists zn x q r,
       n = PyInt zn /\ fpr = PyFloat (FFinite x)
       /\ attr_m s = Some (math_ceil q) /\ attr_k s = Some (math_ceil r)
       /\ (- IZR zn * ln x / (ln 2) ^ 2 * ((1 - u) ^ 4 / (1 + u) ^ 3) <= q
           <= - IZR zn * ln x / (ln 2) ^ 2 * ((1 + u) ^ 4 / (1 - u) ^ 3))%R
       /\ (IZR (math_ceil q) / IZR zn * ln 2 * (1 - u) ^ 3 <= r
           <= IZR (math_ceil q) / IZR zn * ln 2 * (1 + u) ^ 3)%R
       /\ (u = 0%R ->
           q = (- IZR zn * ln x / (ln 2) ^ 2)%R
           /\ r = (IZR (math_ceil q) / IZR zn * ln 2)%R))
  /\ (forall fpr, float_literal u (1 / 100) fpr ->
        exists s, BloomFilter F (PyInt 100) (PyFloat (FFinite fpr)) = Ok s
                  /\ attr_m s = Some 959 /\ attr_k s = Some 7)
  /\ (forall fpr, float_literal u (1 / 100) fpr ->
        exists s, BloomFilter F (PyInt 1000) (PyFloat (FFinite fpr)) = Ok s
                  /\ attr_m s = Some 9586 /\ attr_k s = Some 7)
  /\ (forall fpr, float_literal u (1 / 1000) fpr ->
        exists s, BloomFilter F (PyInt 10000) (PyFloat (FFinite fpr)) = Ok s
                  /\ attr_m s = Some 143776 /\ attr_k s = Some 10)
  /\ (forall fpr, float_literal u (1 / 2) fpr ->
        exists s, BloomFilter F (PyInt 10) (PyFloat (FFinite fpr)) = Ok s
                  /\ attr_m s = Some 15 /\ attr_k s = Some 2).
Proof.
  intros Hacc Hu. assert (Hm := u_max_small).
  assert (Hu1 : (0 <= u < 1)%R) by lra.
  assert (Hlit : forall c fpr, (0 < c < 1 - / 1000000000)%R ->
                   float_literal u c fpr -> (0 < fpr < 1)%R).
  { intros c fpr Hc H.
    assert (Hc0 : (0 < c)%R) by lra.
    assert (Hl : (- ln c <= - ln c <= - ln c)%R) by lra.
    destruct (neg_ln_literal u Hu c fpr (- ln c) (- ln c) Hc0 H Hl) as [Hx _].
    nra. }
  split; [| repeat split].
  - intros n fpr s Hs.
    destruct (BloomFilter_returns F n fpr s Hs) as (z & x & -> & -> & Hz & Hx & ->).
    assert (Hq := quotient_near F u Hacc Hu1 z x Hz Hx).
    assert (Hr := product_near F u Hacc Hu1 (m_of F z x) z Hz
                    (m_of_pos F u Hacc Hu1 z x Hz Hx)).
    exists z, x,
      (f_div F (f_mul F (f_of_int F (- z)) (f_log F x)) (f_pow F (f_log F 2) 2)),
      (f_mul F (f_truediv F (m_of F z x) z) (f_log F 2)).
    split; [reflexivity |]. split; [reflexivity |].
    split; [reflexivity |]. split; [reflexivity |].
    split; [exact Hq |]. split; [exact Hr |].
    intros ->. clear - Hq Hr. unfold m_of in Hr.
    replace ((1 - 0) ^ 4 / (1 + 0) ^ 3)%R with 1%R in Hq by (field; lra).
    replace ((1 + 0) ^ 4 / (1 - 0) ^ 3)%R with 1%R in Hq by (field; lra).
    replace ((1 - 0) ^ 3)%R with 1%R in Hr by ring.
    replace ((1 + 0) ^ 3)%R with 1%R in Hr by ring.
    rewrite !Rmult_1_r in Hq, Hr.
    split; apply Rle_antisym; tauto.
  - intros fpr H. exists (built F 100 fpr).
    destruct (table_100 F u Hacc Hu fpr H) as [Em Ek].
    rewrite (BloomFilter_valid F u 100 fpr Hacc Hu1 ltac:(lia)
               (Hlit (1 / 100)%R fpr ltac:(lra) H)).
    simpl. rewrite Ek, Em. auto.
  - intros fpr H. exists (built F 1000 fpr).
    destruct (table_1000 F u Hacc Hu fpr H) as [Em Ek].
    rewrite (BloomFilter_valid F u 1000 fpr Hacc Hu1 ltac:(lia)
               (Hlit (1 / 100)%R fpr ltac:(lra) H)).
    simpl. rewrite Ek, Em. auto.
  - intros fpr H. exists (built F 10000 fpr).
    destruct (table_10000 F u Hacc Hu fpr H) as [Em Ek].
    rewrite (BloomFilter_valid F u 10000 fpr Hacc Hu1 ltac:(lia)
               (Hlit (1 / 1000)%R fpr ltac:(lra) H)).
    simpl. rewrite Ek, Em. auto.
  - intros fpr H. exists (built F 10 fpr).
    destruct (table_10 F u Hacc Hu fpr H) as [Em Ek].
    rewrite (BloomFilter_valid F u 10 fpr Hacc Hu1 ltac:(lia)
               (Hlit (1 / 2)%R fpr ltac:(lra) H)).
    simpl. rewrite Ek, Em. auto.
Qed.

(** C4, as the code has it: the exposed rate.  On every filter that the
    constructor returns, [true_fpr] is the floating-point value of
    [(1 - exp (- k * n / m)) ** k] computed from the stored [n] and the
    integer-rounded [m] and [k].  It is not always at least the target: for
    the capacity 1 and the literal [0.5], under every floating-point
    arithmetic of relative error at most [2 ^ -30], the filter has two bits
    and two hash functions and [true_fpr] is below 0.45. *)
Theorem true_fpr_as_computed (F : FloatOps) (u : R) :
  accurate u F -> (0 <= u <= u_max)%R ->
  (forall n fpr s,
     BloomFilter F n fpr = Ok s ->
     exists zn m k,
       attr_n s = Some (PyInt zn) /\ attr_m s = Some m /\ attr_k s = Some k
       /\ attr_true_fpr s
          = Some (f_pow F (f_sub F 1 (f_exp F (f_truediv F (- k * zn) m))) k))
  /\ (forall fpr, float_literal u (1 / 2) fpr ->
        exists s t,
          BloomFilter F (PyInt 1) (PyFloat (FFinite fpr)) = Ok s
          /\ attr_m s = Some 2 /\ attr_k s = Some 2
          /\ attr_true_fpr s = Some t /\ (t < 45 / 100 < fpr)%R).
Proof.
  intros Hacc Hu. assert (Hm := u_max_small).
  assert (Hu1 : (0 <= u < 1)%R) by lra.
  split.
  - intros n fpr s Hs.
    destruct (BloomFilter_returns F n fpr s Hs) as (z & x & -> & -> & Hz & Hx & ->).
    exists z, (m_of F z x), (k_of F z x). repeat split.
  - intros fpr Hlit.
    destruct (table_1 F u Hacc Hu fpr Hlit) as [Em Ek].
    destruct (true_fpr_1_half F u Hacc Hu fpr Hlit) as [Ht Hf].
    assert (Hx : (0 < fpr < 1)%R).
    { unfold float_literal in Hlit. rewrite (Rabs_pos_eq (1 / 2)) in Hlit by lra.
      assert (H := Rle_abs (fpr - 1 / 2)). lra. }
    exists (built F 1 fpr), (true_fpr_of F 1 fpr).
    split; [apply (BloomFilter_valid F u 1 fpr Hacc Hu1); [lia | exact Hx] |].
    split; [cbn [attr_m built]; rewrite Em; reflexivity |].
    split; [cbn [attr_k built]; rewrite Ek; reflexivity |].
    split; [reflexivity | lra].
Qed.

(** ** The properties at concrete inputs *)

Lemma reachable_10_half :
  reachable (HA:=int_hash) (HS:=int_salt_hash) exact_ops (built exact_ops 10 (1 / 2)).
Proof.
  apply (reach_new exact_ops (PyInt 10) (PyFloat (FFinite (1 / 2)))).
  exact BloomFilter_10_half.
Qed.

(** The filter [BloomFilter(10, 0.5)] and the element 42: an instance of C1. *)
Lemma no_false_negatives_witness :
  let s := built exact_ops 10 (1 / 2) in
  fst (add (HA:=int_hash) (HS:=int_salt_hash) 42 s) = Ok tt
  /\ fst (__contains__ (HA:=int_hash) (HS:=int_salt_hash) 42
            (snd (add (HA:=int_hash) (HS:=int_salt_hash) 42 s))) = Ok true.
Proof.
  apply (no_false_negatives (HA:=int_hash) (HS:=int_salt_hash) exact_ops 0).
  - exact exact_accurate_0.
  - lra.
  - exact reachable_10_half.
Defined.

(** The small filter has the hash functions 0, 1 and 2 and no other: an
    instance of C3. *)
Lemma hash_contract_witness :
  wf small_filter 5 3 [true; true; false; true; false]
  /\ fst (_hash (HA:=int_hash) (HS:=int_salt_hash) 1 2 small_filter) = Ok 0
  /\ fst (_hash (HA:=int_hash) (HS:=int_salt_hash) 1 3 small_filter) = Raise ValueError.
Proof.
  split; [exact small_filter_wf |].
  split.
  - apply (hash_contract (HA:=int_hash) (HS:=int_salt_hash) small_filter 5 3
             [true; true; false; true; false] 1 2 small_filter_wf). lia.
  - apply (hash_contract (HA:=int_hash) (HS:=int_salt_hash) small_filter 5 3
             [true; true; false; true; false] 1 3 small_filter_wf).
    split; [reflexivity | lia].
Defined.

(** The small filter and the element 2: an instance of C6. *)
Lemma add_idempotent_witness :
  wf small_filter 5 3 [true; true; false; true; false]
  /\ snd (add (HA:=int_hash) (HS:=int_salt_hash) 2
            (snd (add (HA:=int_hash) (HS:=int_salt_hash) 2 small_filter)))
     = snd (add (HA:=int_hash) (HS:=int_salt_hash) 2 small_filter).
Proof.
  split; [exact small_filter_wf |].
  apply (add_idempotent (HA:=int_hash) (HS:=int_salt_hash) small_filter 5 3
           [true; true; false; true; false] 2 small_filter_wf).
Defined.

(** The small filter, which holds the element 1, after the insertion of 2
    and 7: an instance of C7. *)
Lemma membership_monotone_witness :
  wf small_filter 5 3 [true; true; false; true; false]
  /\ fst (__contains__ (HA:=int_hash) (HS:=int_salt_hash) 1 small_filter) = Ok true
  /\ fst (__contains__ (HA:=int_hash) (HS:=int_salt_hash) 1
            (add_all (HA:=int_hash) (HS:=int_salt_hash) [2; 7] small_filter)) = Ok true.
Proof.
  split; [exact small_filter_wf |].
  split; [reflexivity |].
  apply (membership_monotone (HA:=int_hash) (HS:=int_salt_hash) small_filter 5 3
           [true; true; false; true; false] 1 [2; 7] small_filter_wf).
  reflexivity.
Defined.

(** The filter [BloomFilter(10, 0.5)]: an instance of C10. *)
Lemma accesses_in_bounds_witness :
  let s := built exact_ops 10 (1 / 2) in
  exists m k bits,
    attr_m s = Some m /\ attr_k s = Some k /\ attr_bits s = Some bits
    /\ 0 < m /\ Z.of_nat (length bits) = m
    /\ (forall (x : Z) i, 0 <= i < k ->
          exists v, _hash (HA:=int_hash) (HS:=int_salt_hash) x i s = (Ok v, s)
                    /\ 0 <= v < Z.of_nat (length bits))
    /\ (forall x : Z, fst (add (HA:=int_hash) (HS:=int_salt_hash) x s) = Ok tt)
    /\ (forall x : Z, exists b,
          fst (__contains__ (HA:=int_hash) (HS:=int_salt_hash) x s) = Ok b).
Proof.
  apply (accesses_in_bounds (HA:=int_hash) (HS:=int_salt_hash) exact_ops 0).
  - exact exact_accurate_0.
  - lra.
  - exact reachable_10_half.
Defined.



(** The claim C5 fails on [BloomFilter(0, 0.01)]: the constructor raises
    [ValueError] and the attributes [n] and [fpr] are set. *)
Lemma arguments_stored_before_validation :
  let outcome :=
    __init__ exact_ops (PyInt 0) (PyFloat (FFinite (1 / 100))) new_instance in
  fst outcome = Raise ValueError
  /\ attr_n (snd outcome) = Some (PyInt 0)
  /\ attr_fpr (snd outcome) = Some (PyFloat (FFinite (1 / 100))).
Proof.
  cbv zeta. rewrite init_invalid by reflexivity. repeat split.
Qed.

(** [BloomFilter(0, 0.01)]: an instance of C5 as the code has it. *)
Lemma validation_precedes_derivation_witness :
  let s := set_fpr (PyFloat (FFinite (1 / 100))) (set_n (PyInt 0) new_instance) in
  __init__ exact_ops (PyInt 0) (PyFloat (FFinite (1 / 100))) new_instance
  = (Raise ValueError, s)
  /\ attr_n s = Some (PyInt 0) /\ attr_fpr s = Some (PyFloat (FFinite (1 / 100)))
  /\ attr_m s = None /\ attr_k s = None
  /\ attr_true_fpr s = None /\ attr_bits s = None.
Proof.
  assert (H : __init__ exact_ops (PyInt 0) (PyFloat (FFinite (1 / 100))) new_instance
              = (Raise ValueError,
                 set_fpr (PyFloat (FFinite (1 / 100))) (set_n (PyInt 0) new_instance))).
  { apply init_invalid. reflexivity. }
  split; [exact H |].
  exact (validation_precedes_derivation exact_ops _ _ _ H).
Defined.

Lemma float_literal_exact c : float_literal 0 c c.
Proof.
  unfold float_literal. rewrite Rminus_diag, Rabs_R0, Rmult_0_l. apply Rle_refl.
Qed.

(** The first entry of the table in exact arithmetic: an instance of C2. *)
Lemma parameter_derivation_witness :
  exists s, BloomFilter exact_ops (PyInt 100) (PyFloat (FFinite (1 / 100))) = Ok s
            /\ attr_m s = Some 959 /\ attr_k s = Some 7.
Proof.
  assert (Hu : (0 <= 0 <= u_max)%R) by (unfold u_max; lra).
  destruct (parameter_derivation exact_ops 0 exact_accurate_0 Hu) as (_ & H & _).
  apply H. apply float_literal_exact.
Defined.

(** The claim C2 fails on [BloomFilter(1, 0.09051270335250715)]: in double
    precision the quotient of line 25 is rounded to [5.0] and [m] is 5,
    where the exact quotient is above 5 and its ceiling is 6. *)
Lemma rounded_quotient_below_exact :
  accurate (/ 2 ^ 53) line_25_doubles
  /\ (exists s,
        BloomFilter line_25_doubles (PyInt 1) (PyFloat (FFinite fpr_d)) = Ok s
        /\ attr_m s = Some 5)
  /\ math_ceil (- IZR 1 * ln fpr_d / (ln 2) ^ 2) = 6.
Proof.
  split; [exact line_25_doubles_accurate |].
  split; [| exact exact_quotient_fpr_d].
  exists (built line_25_doubles 1 fpr_d). split.
  - apply (BloomFilter_valid line_25_doubles (/ 2 ^ 53) 1 fpr_d
             line_25_doubles_accurate half_ulp_small); [lia | exact fpr_d_unit].
  - cbn [attr_m built]. rewrite m_of_line_25_doubles. reflexivity.
Qed.

(** The claim C4 fails on [BloomFilter(1, 0.5)]: two bits, two hash
    functions, and an exposed rate below the target. *)
Lemma true_fpr_below_target :
  exists s t,
    BloomFilter exact_ops (PyInt 1) (PyFloat (FFinite (1 / 2))) = Ok s
    /\ attr_m s = Some 2 /\ attr_k s = Some 2
    /\ attr_true_fpr s = Some t /\ (t < 1 / 2)%R.
Proof.
  assert (Hu : (0 <= 0 <= u_max)%R) by (unfold u_max; lra).
  assert (Hl := float_literal_exact (1 / 2)).
  destruct (table_1 exact_ops 0 exact_accurate_0 Hu _ Hl) as [Em Ek].
  destruct (true_fpr_1_half exact_ops 0 exact_accurate_0 Hu _ Hl) as [Ht _].
  exists (built exact_ops 1 (1 / 2)), (true_fpr_of exact_ops 1 (1 / 2)).
  split; [apply (BloomFilter_valid exact_ops 0 1 (1 / 2) exact_accurate_0); lra || lia |].
  split; [cbn [attr_m built]; rewrite Em; reflexivity |].
  split; [cbn [attr_k built]; rewrite Ek; reflexivity |].
  split; [reflexivity | lra].
Qed.

(** [BloomFilter(1, 0.5)] in exact arithmetic: an instance of C4 as the code
    has it. *)
Lemma true_fpr_as_computed_witness :
  exists s t,
    BloomFilter exact_ops (PyInt 1) (PyFloat (FFinite (1 / 2))) = Ok s
    /\ attr_m s = Some 2 /\ attr_k s = Some 2
    /\ attr_true_fpr s = Some t /\ (t < 45 / 100 < 1 / 2)%R.
Proof.
  assert (Hu : (0 <= 0 <= u_max)%R) by (unfold u_max; lra).
  apply (proj2 (true_fpr_as_computed exact_ops 0 exact_accurate_0 Hu)).
  apply float_literal_exact.
Defined.

(** * Further properties of the code *)

(** ** Bit arrays after several updates *)

Lemma set_true_lookup (bits : list bool) (js : list Z) (p : nat) :
  set_true bits js !! p = Some true
  <-> bits !! p = Some true
      \/ ((p < length bits)%nat /\ exists j, j ∈ js /\ Z.to_nat j = p).
Proof.
  revert bits. induction js as [|j0 js IH]; intros bits.
  - simpl. split; [auto |]. intros [H | (_ & j & Hj & _)]; [assumption | inversion Hj].
  - simpl. rewrite IH, length_insert. split.
    + intros [H | (Hp & j & Hj & Ej)].
      * destruct (decide (Z.to_nat j0 = p)) as [E | Hne].
        -- right. split; [eapply lookup_lt_Some in H; rewrite length_insert in H; exact H |].
           exists j0. split; [left | assumption].
        -- left. rewrite list_lookup_insert_ne in H by assumption. assumption.
      * right. split; [assumption |]. exists j. split; [right; assumption | assumption].
    + intros [H | (Hp & j & Hj & Ej)].
      * left. apply insert_true_keeps. assumption.
      * apply elem_of_cons in Hj as [-> | Hj].
        -- left. subst p. apply list_lookup_insert_eq. assumption.
        -- right. split; [assumption |]. exists j. auto.
Qed.

Lemma set_true_lookup_other (bits : list bool) (js : list Z) (p : nat) :
  (forall j, j ∈ js -> Z.to_nat j <> p) -> set_true bits js !! p = bits !! p.
Proof.
  revert bits. induction js as [|j0 js IH]; intros bits H; simpl; [reflexivity |].
  rewrite IH by (intros j Hj; apply H; right; assumption).
  apply list_lookup_insert_ne, H. left.
Qed.

Lemma set_true_app bits js1 js2 :
  set_true bits (js1 ++ js2) = set_true (set_true bits js1) js2.
Proof. unfold set_true. apply fold_left_app. Qed.

(** Two arrays of booleans of one length with the same set bits are equal. *)
Lemma bits_eq (b1 b2 : list bool) :
  length b1 = length b2 ->
  (forall p : nat, b1 !! p = Some true <-> b2 !! p = Some true) ->
  b1 = b2.
Proof.
  intros Hlen H. apply list_eq. intros p.
  destruct (b1 !! p) as [v1|] eqn:E1; destruct (b2 !! p) as [v2|] eqn:E2.
  - destruct v1, v2; try reflexivity.
    + apply H in E1. congruence.
    + apply H in E2. congruence.
  - apply lookup_lt_Some in E1. apply lookup_ge_None in E2. lia.
  - apply lookup_ge_None in E1. apply lookup_lt_Some in E2. lia.
  - reflexivity.
Qed.

Lemma set_true_comm bits js1 js2 :
  set_true (set_true bits js1) js2 = set_true (set_true bits js2) js1.
Proof.
  apply bits_eq; [rewrite !set_true_length; reflexivity |].
  intros p. rewrite !set_true_lookup, !set_true_length. tauto.
Qed.

Lemma count_true_length bits : (count_true bits <= length bits)%nat.
Proof. induction bits as [|[|] bits IH]; simpl; lia. Qed.

Lemma count_true_insert bits (p : nat) :
  (count_true bits <= count_true (<[p:=true]> bits) <= S (count_true bits))%nat.
Proof.
  revert p. induction bits as [|b bits IH]; intros p; simpl; [lia |].
  destruct p as [|p]; simpl.
  - destruct b; lia.
  - specialize (IH p). destruct b; lia.
Qed.

Lemma count_true_set_true bits js :
  (count_true bits <= count_true (set_true bits js)
   <= count_true bits + length js)%nat.
Proof.
  revert bits. induction js as [|j js IH]; intros bits; simpl; [lia |].
  specialize (IH (<[Z.to_nat j:=true]> bits)).
  assert (H := count_true_insert bits (Z.to_nat j)). lia.
Qed.

Lemma replicate_false_lookup (n p : nat) : replicate n false !! p <> Some true.
Proof.
  intros H. apply lookup_replicate in H as [H _]. discriminate.
Qed.

(** ** Sequences of insertions, bit by bit *)

Section FurtherMethods.
Context {A : Type} `{HA : Hashable A} `{HS : Hashable (A * string)}.

Lemma elem_of_indices_of (m k : Z) (ys : list A) (j : Z) :
  j ∈ indices_of m k ys
  <-> exists y i, y ∈ ys /\ 0 <= i < k /\ j = hash_index m y i.
Proof.
  unfold indices_of. rewrite list_elem_of_In, in_concat. split.
  - intros (l & Hl & Hj). apply list_elem_of_In in Hl, Hj.
    apply list_elem_of_fmap in Hl as (y & -> & Hy).
    apply list_elem_of_fmap in Hj as (i & -> & Hi). apply elem_of_range in Hi.
    exists y, i. auto.
  - intros (y & i & Hy & Hi & ->). exists (hash_index m y <$> range k). split.
    + apply list_elem_of_In, list_elem_of_fmap. exists y. auto.
    + apply list_elem_of_In, list_elem_of_fmap. exists i.
      split; [reflexivity | apply elem_of_range, Hi].
Qed.

Lemma add_all_bits (ys : list A) s m k bits :
  wf s m k bits -> wf (add_all ys s) m k (set_true bits (indices_of m k ys)).
Proof.
  revert s bits. induction ys as [|y ys IH]; intros s bits Hwf.
  - assumption.
  - change (add_all (y :: ys) s) with (add_all ys (snd (add y s))).
    change (indices_of m k (y :: ys))
      with ((hash_index m y <$> range k) ++ indices_of m k ys).
    rewrite set_true_app. apply IH, add_wf, Hwf.
Qed.

Lemma for_each_add (ys : list A) s m k bits :
  wf s m k bits -> for_each ys add s = (Ok tt, add_all ys s).
Proof.
  revert s bits. induction ys as [|y ys IH]; intros s bits Hwf.
  - reflexivity.
  - simpl for_each.
    rewrite (bind_ok _ _ s tt (snd (add y s)))
      by (rewrite (add_run s m k bits y Hwf); reflexivity).
    apply (IH _ _ (add_wf s m k bits y Hwf)).
Qed.

Lemma hash_index_to_nat_inj (m : Z) (x y : A) (i i' : Z) :
  0 < m -> Z.to_nat (hash_index m y i') = Z.to_nat (hash_index m x i)
  -> hash_index m y i' = hash_index m x i.
Proof.
  intros Hm H. assert (H1 := hash_index_bound m x i Hm).
  assert (H2 := hash_index_bound m y i' Hm). lia.
Qed.

Lemma contains_true_iff s m k bits (x : A) :
  wf s m k bits ->
  exists b, fst (__contains__ x s) = Ok b
            /\ (b = true <-> forall i, 0 <= i < k ->
                               bits !! Z.to_nat (hash_index m x i) = Some true).
Proof.
  intros Hwf. rewrite (contains_run s m k bits x Hwf). eexists. split; [reflexivity |].
  rewrite forallb_bit_at. split.
  - intros H i Hi. apply H, list_elem_of_fmap. exists i.
    split; [reflexivity | apply elem_of_range, Hi].
  - intros H j Hj. apply list_elem_of_fmap in Hj as (i & -> & Hi).
    apply H, elem_of_range, Hi.
Qed.

Lemma add_body_state (x : A) (i : Z) s :
  snd (add_body x i s) = s \/ exists b, snd (add_body x i s) = set_bits b s.
Proof.
  unfold add_body, bind.
  assert (Hs := getattr_state attr_bits s).
  destruct (getattr attr_bits s) as [[b0|e] s0]; simpl in Hs; subst s0; [| left; reflexivity].
  assert (Hh := hash_state x i s).
  destruct (_hash x i s) as [[idx|e] s1]; simpl in Hh; subst s1; [| left; reflexivity].
  assert (Hs := getattr_state attr_bits s).
  destruct (getattr attr_bits s) as [[b1|e] s0]; simpl in Hs; subst s0; [| left; reflexivity].
  unfold lift, setattr.
  destruct (list_setitem b1 idx true) as [b2|e]; simpl; [right; eauto | left; reflexivity].
Qed.

Lemma same_parameters_refl s : same_parameters s s.
Proof. repeat split. Qed.

Lemma same_parameters_trans s1 s2 s3 :
  same_parameters s1 s2 -> same_parameters s2 s3 -> same_parameters s1 s3.
Proof.
  unfold same_parameters. intros (?&?&?&?&?) (?&?&?&?&?).
  repeat split; congruence.
Qed.

Lemma add_body_parameters (x : A) (i : Z) s : same_parameters s (snd (add_body x i s)).
Proof.
  destruct (add_body_state x i s) as [-> | [b ->]]; repeat split.
Qed.

Lemma list_setitem_error {B} (l : list B) (i : Z) (b : B) (e : exn) :
  list_setitem l i b = Raise e -> e = IndexError.
Proof.
  unfold list_setitem, list_index.
  destruct ((0 <=? _) && _); [discriminate | intros H; inversion H; reflexivity].
Qed.

Lemma list_getitem_error {B} (l : list B) (i : Z) (e : exn) :
  list_getitem l i = Raise e -> e = IndexError.
Proof.
  unfold list_getitem, list_index.
  destruct ((0 <=? _) && _).
  - destruct (l !! _); [discriminate | intros H; inversion H; reflexivity].
  - intros H; inversion H; reflexivity.
Qed.

Lemma hash_no_ValueError (x : A) (i k : Z) s :
  attr_k s = Some k -> 0 <= i < k -> fst (_hash x i s) <> Raise ValueError.
Proof.
  intros Hk Hi.
  assert (E1 : (i <? 0) = false) by (apply Z.ltb_ge; lia).
  assert (E2 : (i >=? k) = false) by (rewrite Z.geb_leb; apply Z.leb_gt; lia).
  unfold _hash, bind, getattr, lift, ret, raise, int_mod.
  rewrite E1. repeat (simpl; rewrite ?Hk, ?E2).
  destruct (attr_m s) as [m|] eqn:Em; simpl; [| discriminate].
  destruct (m =? 0) eqn:E0; repeat (simpl; rewrite ?Em, ?E0); discriminate.
Qed.

Lemma add_body_no_ValueError (x : A) (i k : Z) s :
  attr_k s = Some k -> 0 <= i < k -> fst (add_body x i s) <> Raise ValueError.
Proof.
  intros Hk Hi. assert (Hne := hash_no_ValueError x i k s Hk Hi).
  unfold add_body, bind.
  assert (Hs := getattr_state attr_bits s).
  destruct (getattr attr_bits s) as [[b0|e] s0] eqn:E0; simpl in Hs; subst s0.
  2:{ unfold getattr in E0. destruct (attr_bits s); inversion E0. simpl. discriminate. }
  assert (Hh := hash_state x i s).
  destruct (_hash x i s) as [[idx|e] s1]; simpl in Hh, Hne; subst s1;
    [| simpl; congruence].
  rewrite E0. unfold lift, setattr.
  destruct (list_setitem b0 idx true) as [b2|e] eqn:El; simpl; [discriminate |].
  apply list_setitem_error in El. subst e. discriminate.
Qed.

Lemma contains_gen_no_ValueError (x : A) (i k : Z) s :
  attr_k s = Some k -> 0 <= i < k -> fst (contains_gen x i s) <> Raise ValueError.
Proof.
  intros Hk Hi. assert (Hne := hash_no_ValueError x i k s Hk Hi).
  unfold contains_gen, bind.
  assert (Hs := getattr_state attr_bits s).
  destruct (getattr attr_bits s) as [[b0|e] s0] eqn:E0; simpl in Hs; subst s0.
  2:{ unfold getattr in E0. destruct (attr_bits s); inversion E0. simpl. discriminate. }
  assert (Hh := hash_state x i s).
  destruct (_hash x i s) as [[idx|e] s1]; simpl in Hh, Hne; subst s1;
    [| simpl; congruence].
  unfold lift. simpl.
  destruct (list_getitem b0 idx) as [b|e] eqn:El; [discriminate |].
  apply list_getitem_error in El. subst e. discriminate.
Qed.

Lemma for_each_add_no_ValueError (x : A) (k : Z) (idxs : list Z) s :
  attr_k s = Some k -> (forall i, i ∈ idxs -> 0 <= i < k) ->
  fst (for_each idxs (add_body x) s) <> Raise ValueError.
Proof.
  revert s. induction idxs as [|i idxs IH]; intros s Hk Hin.
  - simpl. discriminate.
  - simpl. unfold bind.
    assert (Hne := add_body_no_ValueError x i k s Hk (Hin i ltac:(left))).
    assert (Hp := add_body_parameters x i s).
    destruct (add_body x i s) as [[[]|e] s1]; simpl in *.
    + apply IH; [| intros i' Hi'; apply Hin; right; assumption].
      destruct Hp as (_ & _ & _ & Hk' & _). congruence.
    + congruence.
Qed.

Lemma py_all_contains_no_ValueError (x : A) (k : Z) (idxs : list Z) s :
  attr_k s = Some k -> (forall i, i ∈ idxs -> 0 <= i < k) ->
  fst (py_all idxs (contains_gen x) s) <> Raise ValueError.
Proof.
  intros Hk. induction idxs as [|i idxs IH]; intros Hin.
  - simpl. discriminate.
  - simpl. unfold bind.
    assert (Hne := contains_gen_no_ValueError x i k s Hk (Hin i ltac:(left))).
    assert (Hs := contains_gen_state x i s).
    destruct (contains_gen x i s) as [[[|]|e] s1]; simpl in *; subst s1.
    + apply IH. intros i' Hi'. apply Hin. right. assumption.
    + discriminate.
    + congruence.
Qed.

End FurtherMethods.

Lemma init_ValueError_state (F : FloatOps) (n fpr : pyval) (s : instance) :
  __init__ F n fpr new_instance = (Raise ValueError, s) ->
  s = set_fpr fpr (set_n n new_instance).
Proof.
  intros H. destruct (valid_args n fpr) eqn:E.
  - apply valid_args_true in E as [(z & -> & Hz) (x & -> & Hx)].
    exfalso. apply (init_valid_no_ValueError F z x Hz Hx).
    rewrite H. reflexivity.
  - rewrite (init_invalid F n fpr E) in H. inversion H. reflexivity.
Qed.

Lemma math_ceil_le (r : R) (z : Z) : (r <= IZR z)%R -> math_ceil r <= z.
Proof.
  intros H. destruct (math_ceil_bounds r) as [H1 _].
  assert (Hlt : math_ceil r < z + 1); [| lia].
  apply lt_IZR. rewrite plus_IZR. lra.
Qed.

(** ** Further properties of the methods *)

Section FurtherProperties.
Context {A : Type} `{HA : Hashable A} `{HS : Hashable (A * string)}.

(** X1: every inserted element is found.  After the calls [add y] for the
    [y] of a list, in order, on a filter, the test returns [True] for each of
    them; so an element for which the test returns [False] is none of
    them. *)
Theorem inserted_elements_found (s : instance) (m k : Z) (bits : list bool)
    (ys : list A) :
  wf s m k bits ->
  (forall y, y ∈ ys -> fst (__contains__ y (add_all ys s)) = Ok true)
  /\ (forall x, fst (__contains__ x (add_all ys s)) = Ok false -> x ∉ ys).
Proof.
  intros Hwf.
  assert (Hfound : forall y, y ∈ ys -> fst (__contains__ y (add_all ys s)) = Ok true).
  { intros y Hy. assert (Hwf' := add_all_bits ys s m k bits Hwf).
    destruct (contains_true_iff _ m k _ y Hwf') as (b & -> & Hb).
    f_equal. apply Hb. intros i Hi. apply set_true_lookup. right.
    assert (Hbound := hash_index_bound m y i (wf_pos _ _ _ _ Hwf)).
    assert (Hlen := wf_len _ _ _ _ Hwf).
    split; [lia |]. exists (hash_index m y i). split; [| reflexivity].
    apply elem_of_indices_of. exists y, i. auto. }
  split; [exact Hfound |].
  intros x Hx Hin. rewrite (Hfound x Hin) in Hx. discriminate.
Qed.

(** X2: when the test reports an element.  After the insertion of the
    elements [ys] into a filter with bit array [bits], the test for [x]
    returns a boolean, and it is [True] exactly when each of the [k] indices
    of [x] was set in [bits] or is an index of one of the [ys]. *)
Theorem membership_after_insertions (s : instance) (m k : Z) (bits : list bool)
    (ys : list A) (x : A) :
  wf s m k bits ->
  exists b,
    fst (__contains__ x (add_all ys s)) = Ok b
    /\ (b = true
        <-> forall i, 0 <= i < k ->
              bits !! Z.to_nat (hash_index m x i) = Some true
              \/ exists y i', y ∈ ys /\ 0 <= i' < k
                              /\ hash_index m y i' = hash_index m x i).
Proof.
  intros Hwf. assert (Hwf' := add_all_bits ys s m k bits Hwf).
  destruct (contains_true_iff _ m k _ x Hwf') as (b & Hb & Hiff).
  exists b. split; [exact Hb |]. rewrite Hiff.
  assert (Hpos := wf_pos _ _ _ _ Hwf). assert (Hlen := wf_len _ _ _ _ Hwf).
  split; intros H i Hi; specialize (H i Hi).
  - apply set_true_lookup in H as [H | (_ & j & Hj & Ej)]; [left; exact H |].
    right. apply elem_of_indices_of in Hj as (y & i' & Hy & Hi' & ->).
    exists y, i'. repeat split; try assumption; try lia.
    apply (hash_index_to_nat_inj m x y i i' Hpos Ej).
  - apply set_true_lookup. destruct H as [H | (y & i' & Hy & Hi' & E)]; [left; exact H |].
    right. assert (Hbound := hash_index_bound m x i Hpos).
    split; [lia |]. exists (hash_index m x i). split; [| reflexivity].
    apply elem_of_indices_of. exists y, i'. auto.
Qed.

(** X3: insertions commute.  On a filter, [add x] then [add y] leaves the
    object as [add y] then [add x] does. *)
Theorem add_commutes (s : instance) (m k : Z) (bits : list bool) (x y : A) :
  wf s m k bits ->
  snd (add y (snd (add x s))) = snd (add x (snd (add y s))).
Proof.
  intros Hwf.
  rewrite (add_run _ m k _ y (add_wf s m k bits x Hwf)).
  rewrite (add_run _ m k _ x (add_wf s m k bits y Hwf)).
  rewrite !(add_run s m k bits _ Hwf). simpl.
  rewrite set_true_comm. reflexivity.
Qed.

(** X4: [add] assigns nothing but the bit array.  Whatever the object and
    whether or not [add] returns normally, [n], [fpr], [m], [k] and
    [true_fpr] are after [add] what they were before. *)
Theorem add_keeps_parameters (s : instance) (x : A) :
  attr_n (snd (add x s)) = attr_n s
  /\ attr_fpr (snd (add x s)) = attr_fpr s
  /\ attr_m (snd (add x s)) = attr_m s
  /\ attr_k (snd (add x s)) = attr_k s
  /\ attr_true_fpr (snd (add x s)) = attr_true_fpr s.
Proof.
  change (same_parameters s (snd (add x s))).
  unfold add, bind.
  assert (Hs := getattr_state attr_k s).
  destruct (getattr attr_k s) as [[k|e] s0]; simpl in Hs; subst s0.
  - apply (for_each_invariant same_parameters);
      [apply same_parameters_refl | apply same_parameters_trans
      | apply add_body_parameters].
  - apply same_parameters_refl.
Qed.

(** X5: one insertion sets at most [k] new bits.  On a filter, the number
    of set bits after [add x] is at least what it was and at most [k] more. *)
Theorem add_sets_at_most_k_bits (s : instance) (m k : Z) (bits : list bool) (x : A) :
  wf s m k bits ->
  exists bits',
    attr_bits (snd (add x s)) = Some bits'
    /\ (count_true bits <= count_true bits' <= count_true bits + Z.to_nat k)%nat.
Proof.
  intros Hwf. rewrite (add_run s m k bits x Hwf). simpl. eexists. split; [reflexivity |].
  assert (H := count_true_set_true bits (hash_index m x <$> range k)).
  unfold range in H. rewrite !length_fmap, length_seq in H. exact H.
Qed.

(** X6: a full filter reports every element.  On a filter whose bits are
    all set, before and after any insertions, the test returns [True] for
    every element. *)
Theorem full_filter_reports_everything (s : instance) (m k : Z) (bits : list bool)
    (ys : list A) (x : A) :
  wf s m k bits ->
  (forall p : nat, (p < length bits)%nat -> bits !! p = Some true) ->
  fst (__contains__ x (add_all ys s)) = Ok true.
Proof.
  intros Hwf Hfull. assert (Hwf' := add_all_bits ys s m k bits Hwf).
  destruct (contains_true_iff _ m k _ x Hwf') as (b & -> & Hb).
  f_equal. apply Hb. intros i Hi. apply set_true_keeps, Hfull.
  assert (Hbound := hash_index_bound m x i (wf_pos _ _ _ _ Hwf)).
  assert (Hlen := wf_len _ _ _ _ Hwf). lia.
Qed.

(** X7: the out-of-range error of [_hash] cannot be reached through [add]
    or the membership test.  Whatever the object, neither of them raises
    [ValueError]: both call [_hash] with the indices of [range(self.k)]
    only. *)
Theorem public_methods_never_out_of_range (s : instance) (x : A) :
  fst (add x s) <> Raise ValueError /\ fst (__contains__ x s) <> Raise ValueError.
Proof.
  split.
  - unfold add, bind, getattr. destruct (attr_k s) as [k|] eqn:Hk; [| simpl; discriminate].
    apply (for_each_add_no_ValueError x k); [assumption |].
    intros i. apply elem_of_range.
  - unfold __contains__, bind, getattr.
    destruct (attr_k s) as [k|] eqn:Hk; [| simpl; discriminate].
    apply (py_all_contains_no_ValueError x k); [assumption |].
    intros i. apply elem_of_range.
Qed.

(** X8: double hashing degenerates when the second hash is a multiple of
    [m].  Then the [k] hash functions all return [hash(x) mod m], and
    [add x] sets that one bit and no other. *)
Theorem degenerate_double_hash (s : instance) (m k : Z) (bits : list bool) (x : A) :
  wf s m k bits -> 0 < k ->
  py_hash (x, "salt"%string) mod m = 0 ->
  (forall i, 0 <= i < k -> fst (_hash x i s) = Ok (py_hash x mod m))
  /\ attr_bits (snd (add x s))
     = Some (<[Z.to_nat (py_hash x mod m):=true]> bits).
Proof.
  intros Hwf Hk H0.
  assert (Hidx : forall i, hash_index m x i = py_hash x mod m).
  { intros i. unfold hash_index. rewrite H0, Z.mul_0_r, Z.add_0_r.
    apply Z.mod_mod. assert (Hm := wf_pos _ _ _ _ Hwf). lia. }
  split.
  - intros i Hi. rewrite (hash_in_range s m k bits x i Hwf Hi). simpl.
    rewrite Hidx. reflexivity.
  - rewrite (add_run s m k bits x Hwf). simpl. f_equal.
    change (<[Z.to_nat (py_hash x mod m):=true]> bits)
      with (set_true bits [py_hash x mod m]).
    apply bits_eq; [rewrite !set_true_length; reflexivity |].
    intros p. rewrite !set_true_lookup. split.
    + intros [H | (Hp & j & Hj & Ej)]; [left; exact H | right].
      split; [assumption |]. exists (py_hash x mod m). split; [left |].
      apply list_elem_of_fmap in Hj as (i & -> & _). rewrite Hidx in Ej. exact Ej.
    + intros [H | (Hp & j & Hj & Ej)]; [left; exact H | right].
      split; [assumption |]. exists (hash_index m x 0). split.
      * apply list_elem_of_fmap. exists 0. split; [reflexivity |].
        apply elem_of_range. lia.
      * apply list_elem_of_singleton in Hj. subst j. rewrite Hidx. exact Ej.
Qed.

(** X9: an object whose construction failed has no methods that work.
    After [__init__] has raised [ValueError], [_hash], [add] and the
    membership test on that object raise [AttributeError]. *)
Theorem methods_need_construction (F : FloatOps) (n fpr : pyval) (s : instance)
    (x : A) (i : Z) :
  __init__ F n fpr new_instance = (Raise ValueError, s) ->
  fst (_hash x i s) = Raise AttributeError
  /\ fst (add x s) = Raise AttributeError
  /\ fst (__contains__ x s) = Raise AttributeError.
Proof.
  intros H. apply init_ValueError_state in H. subst s.
  repeat split.
  unfold _hash, bind, getattr, ret, raise. destruct (i <? 0); reflexivity.
Qed.

(** X10: a new filter is empty.  On the filter that the constructor
    returns, the test returns [False] for every element. *)
Theorem new_filter_is_empty (F : FloatOps) (u : R) (n fpr : pyval) (s : instance)
    (x : A) :
  accurate u F -> (0 <= u < 1)%R ->
  BloomFilter F n fpr = Ok s ->
  fst (__contains__ x s) = Ok false.
Proof.
  intros Hacc Hu Hs.
  destruct (BloomFilter_ok F u n fpr s Hacc Hu Hs)
    as (z & r & _ & _ & Hz & Hr & ->).
  assert (Hwf := built_wf F u z r Hacc Hu Hz Hr).
  assert (Hk := k_of_pos F u Hacc Hu z r Hz Hr).
  destruct (contains_true_iff _ _ _ _ x Hwf) as (b & -> & Hb).
  f_equal. destruct b; [| reflexivity].
  exfalso. apply (replicate_false_lookup (Z.to_nat (m_of F z r))
                    (Z.to_nat (hash_index (m_of F z r) x 0))).
  apply Hb; [reflexivity | lia].
Qed.

End FurtherProperties.

(** ** Further properties of the constructor *)

Local Open Scope R_scope.

Lemma ln_4_5 : ln (4 / 5) = - ln (5 / 4).
Proof. replace (4 / 5) with (/ (5 / 4)) by lra. apply ln_Rinv. lra. Qed.

(** The capacity 1000 with the target rate 0.8 of the test that is expected
    to fail: 465 bits and one hash function. *)
Lemma table_1000_08 (F : FloatOps) (u fpr : R) :
  accurate u F -> 0 <= u <= u_max -> float_literal u (4 / 5) fpr ->
  (0 < fpr < 1) /\ m_of F 1000 fpr = 465%Z /\ k_of F 1000 fpr = 1%Z.
Proof.
  intros Hacc Hu Hlit. assert (H54 := ln54_bounds). assert (Hm := u_max_small).
  destruct (neg_ln_literal u Hu (4 / 5) fpr (22314355 / 100000000)
              (22314356 / 100000000) ltac:(lra) Hlit) as [Hx Hln].
  { rewrite ln_4_5. lra. }
  split; [lra |].
  assert (Em : m_of F 1000 fpr = 465%Z).
  { eapply (m_of_eq F u Hacc Hu 1000 fpr); [lia | lra | | exact Hln | |];
      unfold q_lo, q_hi, u_max, ln2_lo, ln2_hi; lra. }
  split; [assumption |].
  apply (k_of_eq F u Hacc Hu 1000 fpr 465 1); [lia | lia | exact Em | |];
    unfold r_lo, r_hi, u_max, ln2_lo, ln2_hi; lra.
Qed.

Local Open Scope Z_scope.

(** X11: what the constructor returns.  When [BloomFilter(n, fpr)] returns
    a filter, [n] is a positive int and [fpr] a float strictly between 0 and
    1, the filter stores both, its [m] and [k] are positive, [true_fpr] is
    set, and its bit array is [m] times [False]. *)
Theorem constructor_postcondition (F : FloatOps) (u : R) (n fpr : pyval)
    (s : instance) :
  accurate u F -> (0 <= u < 1)%R ->
  BloomFilter F n fpr = Ok s ->
  positive_int n /\ unit_float fpr
  /\ attr_n s = Some n /\ attr_fpr s = Some fpr
  /\ is_Some (attr_true_fpr s)
  /\ exists m k,
       attr_m s = Some m /\ attr_k s = Some k /\ 0 < m /\ 0 < k
       /\ attr_bits s = Some (replicate (Z.to_nat m) false).
Proof.
  intros Hacc Hu Hs.
  destruct (BloomFilter_ok F u n fpr s Hacc Hu Hs) as (z & r & -> & -> & Hz & Hr & ->).
  split; [exists z; auto |]. split; [exists r; auto |].
  split; [reflexivity |]. split; [reflexivity |].
  split; [eexists; reflexivity |].
  exists (m_of F z r), (k_of F z r).
  split; [reflexivity |]. split; [reflexivity |].
  split; [apply (m_of_pos F u); assumption |].
  split; [apply (k_of_pos F u); assumption | reflexivity].
Qed.

(** X12: there are never more hash functions than bits.  On every filter
    that the constructor returns, [1 <= k <= m], for every floating-point
    arithmetic of relative error at most [2 ^ -30]. *)
Theorem hash_count_at_most_bit_count (F : FloatOps) (u : R) (n fpr : pyval)
    (s : instance) :
  accurate u F -> (0 <= u <= u_max)%R ->
  BloomFilter F n fpr = Ok s ->
  exists m k, attr_m s = Some m /\ attr_k s = Some k /\ 1 <= k <= m.
Proof.
  intros Hacc Hu Hs. assert (Hmax := u_max_small).
  assert (Hu1 : (0 <= u < 1)%R) by lra.
  destruct (BloomFilter_ok F u n fpr s Hacc Hu1 Hs) as (z & r & _ & _ & Hz & Hr & ->).
  exists (m_of F z r), (k_of F z r).
  split; [reflexivity |]. split; [reflexivity |].
  assert (Hm := m_of_pos F u Hacc Hu1 z r Hz Hr).
  assert (Hk := k_of_pos F u Hacc Hu1 z r Hz Hr).
  split; [lia |].
  unfold k_of. apply math_ceil_le.
  destruct (product_between F u Hacc Hu (m_of F z r) z Hz Hm) as [_ Hhi].
  eapply Rle_trans; [exact Hhi |].
  assert (HRm : (0 < IZR (m_of F z r))%R) by (apply IZR_lt; assumption).
  assert (HRz : (1 <= IZR z)%R) by (apply IZR_le; lia).
  assert (Hq : (IZR (m_of F z r) / IZR z <= IZR (m_of F z r))%R).
  { apply Rmult_le_reg_r with (IZR z); [lra |].
    unfold Rdiv. rewrite Rmult_assoc, Rinv_l by lra. nra. }
  assert (Hq0 : (0 < IZR (m_of F z r) / IZR z)%R)
    by (apply Rdiv_lt_0_compat; lra).
  unfold r_hi, ln2_hi, u_max in *. nra.
Qed.

(** X13: a larger capacity or a lower target rate gives no fewer bits, up
    to rounding.  Under floating-point operations of relative error [u < 1],
    when the constructor returns a filter of [m1] bits for [(n1, x1)] and one
    of [m2] bits for [(n2, x2)] with [n1 <= n2] and [x2 <= x1], then
    [m1 < m2 * ((1 + u) / (1 - u)) ^ 7 + 1]: the quotient of line 25 takes
    seven roundings.  With exact operations, [m1 <= m2]. *)
Theorem bit_count_monotone (F : FloatOps) (u : R) (n1 n2 : Z) (x1 x2 : R)
    (s1 s2 : instance) (m1 m2 : Z) :
  accurate u F -> (0 <= u < 1)%R ->
  BloomFilter F (PyInt n1) (PyFloat (FFinite x1)) = Ok s1 ->
  BloomFilter F (PyInt n2) (PyFloat (FFinite x2)) = Ok s2 ->
  attr_m s1 = Some m1 -> attr_m s2 = Some m2 ->
  n1 <= n2 -> (x2 <= x1)%R ->
  (IZR m1 < IZR m2 * ((1 + u) / (1 - u)) ^ 7 + 1)%R
  /\ (u = 0%R -> m1 <= m2).
Proof.
  intros Hacc Hu Hs1 Hs2 Em1 Em2 Hn Hx.
  destruct (BloomFilter_returns F _ _ s1 Hs1) as (z1 & r1 & E1 & E1' & Hz1 & Hr1 & ->).
  destruct (BloomFilter_returns F _ _ s2 Hs2) as (z2 & r2 & E2 & E2' & Hz2 & Hr2 & ->).
  assert (z1 = n1) as -> by congruence. assert (r1 = x1) as -> by congruence.
  assert (z2 = n2) as -> by congruence. assert (r2 = x2) as -> by congruence.
  assert (m1 = m_of F n1 x1) as -> by (cbn [attr_m built] in Em1; congruence).
  assert (m2 = m_of F n2 x2) as -> by (cbn [attr_m built] in Em2; congruence).
  clear E1 E1' E2 E2' Hs1 Hs2 Em1 Em2.
  assert (Hmain : (IZR (m_of F n1 x1)
                   < IZR (m_of F n2 x2) * ((1 + u) / (1 - u)) ^ 7 + 1)%R).
  { unfold m_of.
    destruct (quotient_near F u Hacc Hu n1 x1 Hz1 Hr1) as [_ Hq1].
    destruct (quotient_near F u Hacc Hu n2 x2 Hz2 Hr2) as [Hq2 _].
    destruct (math_ceil_bounds
                (f_div F (f_mul F (f_of_int F (- n1)) (f_log F x1))
                   (f_pow F (f_log F 2) 2))) as [Hc1 _].
    destruct (math_ceil_bounds
                (f_div F (f_mul F (f_of_int F (- n2)) (f_log F x2))
                   (f_pow F (f_log F 2) 2))) as [_ Hc2].
    set (q1 := f_div F (f_mul F (f_of_int F (- n1)) (f_log F x1))
                 (f_pow F (f_log F 2) 2)) in *.
    set (q2 := f_div F (f_mul F (f_of_int F (- n2)) (f_log F x2))
                 (f_pow F (f_log F 2) 2)) in *.
    assert (H2 := ln_2_pos).
    assert (Hl1 : (ln x1 < 0)%R) by (apply ln_neg; lra).
    assert (Hl : (ln x2 <= ln x1)%R).
    { destruct Hx as [Hlt | ->]; [left; apply ln_increasing; lra | lra]. }
    assert (HR1 : (0 < IZR n1)%R) by (apply IZR_lt; lia).
    assert (HRn : (IZR n1 <= IZR n2)%R) by (apply IZR_le; lia).
    assert (Hi2 : (0 < / (ln 2) ^ 2)%R) by (apply Rinv_0_lt_compat; nra).
    assert (HE : (- IZR n1 * ln x1 / (ln 2) ^ 2 <= - IZR n2 * ln x2 / (ln 2) ^ 2)%R).
    { unfold Rdiv. apply Rmult_le_compat_r; [lra | nra]. }
    assert (HE1 : (0 <= - IZR n1 * ln x1 / (ln 2) ^ 2)%R).
    { unfold Rdiv. apply Rmult_le_pos; [nra | lra]. }
    set (e1 := (- IZR n1 * ln x1 / (ln 2) ^ 2)%R) in *.
    set (e2 := (- IZR n2 * ln x2 / (ln 2) ^ 2)%R) in *.
    assert (Ha : (0 < 1 + u)%R) by lra. assert (Hb : (0 < 1 - u)%R) by lra.
    assert (Hup : (0 < (1 + u) ^ 4 / (1 - u) ^ 3)%R).
    { apply Rdiv_lt_0_compat; apply pow_lt; assumption. }
    assert (Hdn : (0 < (1 - u) ^ 4 / (1 + u) ^ 3)%R).
    { apply Rdiv_lt_0_compat; apply pow_lt; assumption. }
    assert (Hr : (0 < ((1 + u) / (1 - u)) ^ 7)%R).
    { apply pow_lt, Rdiv_lt_0_compat; assumption. }
    assert (Hfac : (((1 + u) / (1 - u)) ^ 7
                    = (1 + u) ^ 4 / (1 - u) ^ 3 / ((1 - u) ^ 4 / (1 + u) ^ 3))%R)
      by (field; lra).
    assert (Hstep1 : (q1 <= e2 * ((1 + u) ^ 4 / (1 - u) ^ 3))%R).
    { eapply Rle_trans; [exact Hq1 |]. apply Rmult_le_compat_r; lra. }
    assert (Hstep2 : (e2 * ((1 + u) ^ 4 / (1 - u) ^ 3)
                      = e2 * ((1 - u) ^ 4 / (1 + u) ^ 3) * ((1 + u) / (1 - u)) ^ 7)%R).
    { rewrite Hfac. field. lra. }
    assert (Hstep3 : (e2 * ((1 - u) ^ 4 / (1 + u) ^ 3) * ((1 + u) / (1 - u)) ^ 7
                      <= IZR (math_ceil q2) * ((1 + u) / (1 - u)) ^ 7)%R).
    { apply Rmult_le_compat_r; lra. }
    lra. }
  split; [exact Hmain |].
  intros ->.
  replace (((1 + 0) / (1 - 0)) ^ 7)%R with 1%R in Hmain by (field; lra).
  assert (Hlt : m_of F n1 x1 < m_of F n2 x2 + 1).
  { apply lt_IZR. rewrite plus_IZR. lra. }
  lia.
Qed.

(** ** The measurement *)

Lemma length_range_from (a b : Z) : length (range_from a b) = Z.to_nat (b - a).
Proof. unfold range_from. rewrite length_fmap. apply length_seq. Qed.

Lemma py_sum_all_true {B} (l : list B) (gen : B -> M bool) (acc : Z) s :
  (forall b, gen b s = (Ok true, s)) ->
  py_sum l gen acc s = (Ok (acc + Z.of_nat (length l)), s).
Proof.
  intros Hgen. revert acc. induction l as [|b l IH]; intros acc.
  - simpl. unfold ret. f_equal. f_equal. lia.
  - cbn [py_sum length]. rewrite (bind_ok _ _ s true s (Hgen b)).
    rewrite IH. f_equal. f_equal. cbn [Z.b2z]. lia.
Qed.

Lemma n_trials_pos : 0 < n_trials.
Proof. reflexivity. Qed.

Section MeasurementFacts.
Context `{HZ : Hashable Z} `{HZS : Hashable (Z * string)}.

(** What [measure_fpr] does on valid arguments: the filter, the insertions,
    the count and the quotient. *)
Lemma measure_fpr_valid (F : FloatOps) (u : R) (n : Z) (x : R) :
  accurate u F -> (0 <= u < 1)%R -> 0 < n -> (0 < x < 1)%R ->
  measure_fpr F (PyInt n) (PyFloat (FFinite x))
  = match py_sum (range_from n (n + n_trials)) __contains__ 0
            (add_all (range n) (built F n x)) with
    | (Ok c, _) => Ok (f_truediv F c n_trials)
    | (Raise e, _) => Raise e
    end.
Proof.
  intros Hacc Hu Hn Hx. unfold measure_fpr.
  rewrite (BloomFilter_valid F u n x Hacc Hu Hn Hx).
  assert (Hwf := built_wf F u n x Hacc Hu Hn Hx).
  rewrite (bind_ok _ _ _ n (built F n x)) by reflexivity.
  rewrite (bind_ok _ _ _ tt _ (for_each_add (range n) _ _ _ _ Hwf)).
  unfold bind.
  destruct (py_sum _ _ 0 _) as [[c|e] s1]; [| reflexivity].
  unfold lift, int_truediv.
  replace (n_trials =? 0) with false by reflexivity. reflexivity.
Qed.

(** The sum of [measure_fpr] counts the trials that are reported. *)
Lemma py_sum_reported (l : list Z) (acc : Z) s m k bits :
  wf s m k bits ->
  py_sum l __contains__ acc s
  = (Ok (acc + Z.of_nat (length (List.filter (reported s) l))), s).
Proof.
  intros Hwf. revert acc. induction l as [|b l IH]; intros acc.
  - simpl. unfold ret. f_equal. f_equal. lia.
  - cbn [py_sum List.filter].
    rewrite (bind_ok _ _ s _ s (contains_run s m k bits b Hwf)), IH.
    unfold reported at 2. rewrite (contains_run s m k bits b Hwf). cbn [fst].
    destruct (forallb _ _); cbn [Z.b2z length]; f_equal; f_equal; lia.
Qed.

Lemma length_filter_le {B} (f : B -> bool) (l : list B) :
  (length (List.filter f l) <= length l)%nat.
Proof.
  induction l as [|b l IH]; simpl; [lia |].
  destruct (f b); simpl; lia.
Qed.

(** A returned filter whose bit count is positive has a bit array of that
    length. *)
Lemma built_wf_pos F n x :
  0 < m_of F n x ->
  wf (built F n x) (m_of F n x) (k_of F n x)
     (replicate (Z.to_nat (m_of F n x)) false).
Proof.
  intros Hm. split; try reflexivity; [assumption |].
  rewrite length_replicate. lia.
Qed.

(** X14: what [measure_fpr] returns, whatever the floating-point operations
    are.  On invalid arguments it raises the [ValueError] of the
    constructor.  When the constructor returns a filter of a positive number
    of bits, the insertions and the tests do not raise, and the result is
    [c / n_trials] for the number [c] of trials [n .. n + n_trials - 1] that
    the filter reports after the insertions of [0 .. n - 1]; [c] lies between
    0 and [n_trials].  Under operations of relative error below 1 the
    number of bits of a returned filter is positive. *)
Theorem measure_fpr_outcome (F : FloatOps) (n fpr : pyval) :
  (~ positive_int n \/ ~ unit_float fpr -> measure_fpr F n fpr = Raise ValueError)
  /\ (forall s0 m, BloomFilter F n fpr = Ok s0 -> attr_m s0 = Some m -> 0 < m ->
      exists zn c,
        n = PyInt zn
        /\ c = Z.of_nat (length (List.filter (reported (add_all (range zn) s0))
                                   (range_from zn (zn + n_trials))))
        /\ 0 <= c <= n_trials
        /\ measure_fpr F n fpr = Ok (f_truediv F c n_trials))
  /\ (forall u s0, accurate u F -> (0 <= u < 1)%R -> BloomFilter F n fpr = Ok s0 ->
      exists m, attr_m s0 = Some m /\ 0 < m).
Proof.
  split; [| split].
  - intros H. unfold measure_fpr.
    rewrite (BloomFilter_invalid F n fpr (proj2 (valid_args_false n fpr) H)).
    reflexivity.
  - intros s0 m Hs Em Hm.
    destruct (BloomFilter_returns F n fpr s0 Hs) as (z & x & -> & -> & Hz & Hx & ->).
    assert (m = m_of F z x) as -> by (cbn [attr_m built] in Em; congruence).
    assert (Hwf0 := built_wf_pos F z x Hm).
    assert (Hwf := add_all_bits (range z) _ _ _ _ Hwf0).
    eexists z, _. split; [reflexivity |]. split; [reflexivity |]. split.
    + assert (Hl := length_filter_le (reported (add_all (range z) (built F z x)))
                      (range_from z (z + n_trials))).
      rewrite length_range_from in Hl. assert (Hp := n_trials_pos). lia.
    + unfold measure_fpr. rewrite Hs.
      rewrite (bind_ok _ _ _ z (built F z x)) by reflexivity.
      rewrite (bind_ok _ _ _ tt _ (for_each_add (range z) _ _ _ _ Hwf0)).
      rewrite (bind_ok _ _ _ _ _ (py_sum_reported _ 0 _ _ _ _ Hwf)).
      unfold lift, int_truediv.
      replace (n_trials =? 0) with false by reflexivity. reflexivity.
  - intros u s0 Hacc Hu Hs.
    destruct (BloomFilter_returns F n fpr s0 Hs) as (z & x & -> & -> & Hz & Hx & ->).
    exists (m_of F z x). split; [reflexivity |].
    apply (m_of_pos F u Hacc Hu z x Hz Hx).
Qed.

(** The insertions of [measure_fpr] fill a filter of at most [n] bits. *)
Lemma measure_fpr_fills (F : FloatOps) (u : R) (n : Z) (x : R) :
  accurate u F -> (0 <= u < 1)%R -> 0 < n -> (0 < x < 1)%R ->
  (forall z, 0 <= z < n -> py_hash z = z) ->
  m_of F n x <= n ->
  measure_fpr F (PyInt n) (PyFloat (FFinite x))
  = Ok (f_truediv F n_trials n_trials).
Proof.
  intros Hacc Hu Hn Hx Hhash Hmn.
  rewrite (measure_fpr_valid F u n x Hacc Hu Hn Hx).
  assert (Hwf0 := built_wf F u n x Hacc Hu Hn Hx).
  assert (Hm := m_of_pos F u Hacc Hu n x Hn Hx).
  assert (Hk := k_of_pos F u Hacc Hu n x Hn Hx).
  set (m := m_of F n x) in *. set (k := k_of F n x) in *.
  assert (Hfull : forall p : nat, (p < length (replicate (Z.to_nat m) false))%nat ->
            set_true (replicate (Z.to_nat m) false) (indices_of m k (range n)) !! p
            = Some true).
  { intros p Hp. apply set_true_lookup. right. split; [assumption |].
    rewrite length_replicate in Hp.
    exists (hash_index m (Z.of_nat p) 0). split.
    - apply elem_of_indices_of. exists (Z.of_nat p), 0.
      split; [apply elem_of_range; lia |]. split; [lia | reflexivity].
    - unfold hash_index. rewrite Hhash by lia.
      rewrite Z.mul_0_l, Z.add_0_r, Z.mod_mod, Z.mod_small by lia. lia. }
  assert (Hwf := add_all_bits (range n) _ _ _ _ Hwf0).
  rewrite (py_sum_all_true _ _ 0 _).
  - rewrite length_range_from. f_equal. f_equal.
    assert (Hp := n_trials_pos). lia.
  - intros b. rewrite (contains_run _ _ _ _ b Hwf). f_equal. f_equal.
    apply forallb_bit_at. intros j Hj.
    apply Hfull. rewrite length_replicate.
    apply list_elem_of_fmap in Hj as (i & -> & _).
    assert (Hb := hash_index_bound m b i Hm). lia.
Qed.


(** X15: more items than bits.  When the filter for [(n, fpr)] has at most
    [n] bits and the ints [0 .. n - 1] hash to themselves, the insertions of
    [measure_fpr] set every bit, every one of the [n_trials] trials is
    reported, and the result is [n_trials / n_trials]. *)
Theorem measure_fpr_saturated (F : FloatOps) (u : R) (n : Z) (x : R) :
  accurate u F -> (0 <= u < 1)%R -> 0 < n -> (0 < x < 1)%R ->
  (forall z, 0 <= z < n -> py_hash z = z) ->
  m_of F n x <= n ->
  measure_fpr F (PyInt n) (PyFloat (FFinite x))
  = Ok (f_truediv F n_trials n_trials).
Proof. apply measure_fpr_fills. Qed.

End MeasurementFacts.

(** X16: the measurement of the test that is expected to fail.  For the
    capacity 1000 and the target rate 0.8, under every floating-point
    arithmetic of relative error at most [2 ^ -30], the filter has 465 bits
    and one hash function, and [measure_fpr] returns [n_trials / n_trials]:
    every trial is a false positive. *)
Theorem measure_fpr_1000_08 `{HZ : Hashable Z} `{HZS : Hashable (Z * string)}
    (F : FloatOps) (u fpr : R) :
  accurate u F -> (0 <= u <= u_max)%R -> float_literal u (4 / 5) fpr ->
  (forall z, 0 <= z < 1000 -> py_hash z = z) ->
  (exists s, BloomFilter F (PyInt 1000) (PyFloat (FFinite fpr)) = Ok s
             /\ attr_m s = Some 465 /\ attr_k s = Some 1)
  /\ measure_fpr F (PyInt 1000) (PyFloat (FFinite fpr))
     = Ok (f_truediv F n_trials n_trials).
Proof.
  intros Hacc Hu Hlit Hhash. assert (Hmax := u_max_small).
  assert (Hu1 : (0 <= u < 1)%R) by lra.
  destruct (table_1000_08 F u fpr Hacc Hu Hlit) as (Hx & Em & Ek).
  split.
  - exists (built F 1000 fpr).
    split; [apply (BloomFilter_valid F u 1000 fpr Hacc Hu1); [lia | exact Hx] |].
    split; [cbn [attr_m built]; rewrite Em | cbn [attr_k built]; rewrite Ek];
      reflexivity.
  - apply (measure_fpr_fills F u 1000 fpr Hacc Hu1); [lia | exact Hx | exact Hhash |].
    rewrite Em. lia.
Qed.

(** ** The further properties at concrete inputs *)

Lemma full_filter_wf : wf full_filter 2 2 [true; true].
Proof. split; reflexivity. Qed.

Lemma u_max_0 : (0 <= 0 <= u_max)%R.
Proof. unfold u_max. lra. Qed.

Lemma unit_interval_0 : (0 <= 0 < 1)%R.
Proof. lra. Qed.

(** The small filter after the insertion of 2 and 7: an instance of X1. *)
Lemma inserted_elements_found_witness :
  wf small_filter 5 3 [true; true; false; true; false]
  /\ fst (__contains__ (HA:=int_hash) (HS:=int_salt_hash) 7
            (add_all (HA:=int_hash) (HS:=int_salt_hash) [2; 7] small_filter))
     = Ok true.
Proof.
  split; [exact small_filter_wf |].
  apply (inserted_elements_found (HA:=int_hash) (HS:=int_salt_hash) small_filter 5 3
           [true; true; false; true; false] [2; 7] small_filter_wf).
  right. left.
Defined.

(** The small filter, the insertion of 2 and the test for 7: an instance of
    X2. *)
Lemma membership_after_insertions_witness :
  wf small_filter 5 3 [true; true; false; true; false]
  /\ exists b,
       fst (__contains__ (HA:=int_hash) (HS:=int_salt_hash) 7
              (add_all (HA:=int_hash) (HS:=int_salt_hash) [2] small_filter)) = Ok b
       /\ (b = true
           <-> forall i, 0 <= i < 3 ->
                 [true; true; false; true; false]
                   !! Z.to_nat (hash_index (HA:=int_hash) (HS:=int_salt_hash) 5 7 i)
                 = Some true
                 \/ exists y i', y ∈ [2] /\ 0 <= i' < 3
                      /\ hash_index (HA:=int_hash) (HS:=int_salt_hash) 5 y i'
                         = hash_index (HA:=int_hash) (HS:=int_salt_hash) 5 7 i).
Proof.
  split; [exact small_filter_wf |].
  apply (membership_after_insertions (HA:=int_hash) (HS:=int_salt_hash) small_filter
           5 3 [true; true; false; true; false] [2] 7 small_filter_wf).
Defined.

(** The small filter and the elements 2 and 7: an instance of X3. *)
Lemma add_commutes_witness :
  wf small_filter 5 3 [true; true; false; true; false]
  /\ snd (add (HA:=int_hash) (HS:=int_salt_hash) 7
            (snd (add (HA:=int_hash) (HS:=int_salt_hash) 2 small_filter)))
     = snd (add (HA:=int_hash) (HS:=int_salt_hash) 2
              (snd (add (HA:=int_hash) (HS:=int_salt_hash) 7 small_filter))).
Proof.
  split; [exact small_filter_wf |].
  apply (add_commutes (HA:=int_hash) (HS:=int_salt_hash) small_filter 5 3
           [true; true; false; true; false] 2 7 small_filter_wf).
Defined.

(** The small filter and the element 7: an instance of X5. *)
Lemma add_sets_at_most_k_bits_witness :
  wf small_filter 5 3 [true; true; false; true; false]
  /\ exists bits',
       attr_bits (snd (add (HA:=int_hash) (HS:=int_salt_hash) 7 small_filter))
       = Some bits'
       /\ (3 <= count_true bits' <= 3 + 3)%nat.
Proof.
  split; [exact small_filter_wf |].
  apply (add_sets_at_most_k_bits (HA:=int_hash) (HS:=int_salt_hash) small_filter 5 3
           [true; true; false; true; false] 7 small_filter_wf).
Defined.

(** The full filter and the element 9 after the insertion of 4: an instance
    of X6. *)
Lemma full_filter_reports_everything_witness :
  wf full_filter 2 2 [true; true]
  /\ (forall p : nat, (p < 2)%nat -> [true; true] !! p = Some true)
  /\ fst (__contains__ (HA:=int_hash) (HS:=int_salt_hash) 9
            (add_all (HA:=int_hash) (HS:=int_salt_hash) [4] full_filter)) = Ok true.
Proof.
  assert (Hfull : forall p : nat, (p < 2)%nat -> [true; true] !! p = Some true).
  { intros [|[|p]] Hp; [reflexivity | reflexivity | lia]. }
  split; [exact full_filter_wf |]. split; [exact Hfull |].
  apply (full_filter_reports_everything (HA:=int_hash) (HS:=int_salt_hash) full_filter
           2 2 [true; true] [4] 9 full_filter_wf Hfull).
Defined.

(** The small filter and the element 2, whose second hash is a multiple of
    5: an instance of X8. *)
Lemma degenerate_double_hash_witness :
  wf small_filter 5 3 [true; true; false; true; false]
  /\ int_salt_hash (2, "salt"%string) mod 5 = 0
  /\ attr_bits (snd (add (HA:=int_hash) (HS:=int_salt_hash) 2 small_filter))
     = Some [true; true; true; true; false].
Proof.
  split; [exact small_filter_wf |]. split; [reflexivity |].
  apply (degenerate_double_hash (HA:=int_hash) (HS:=int_salt_hash) small_filter 5 3
           [true; true; false; true; false] 2 small_filter_wf);
    [lia | reflexivity].
Defined.

(** The object of [BloomFilter(0, 0.01)]: an instance of X9. *)
Lemma methods_need_construction_witness :
  let s := set_fpr (PyFloat (FFinite (1 / 100))) (set_n (PyInt 0) new_instance) in
  __init__ exact_ops (PyInt 0) (PyFloat (FFinite (1 / 100))) new_instance
  = (Raise ValueError, s)
  /\ fst (add (HA:=int_hash) (HS:=int_salt_hash) 1 s) = Raise AttributeError.
Proof.
  assert (H : __init__ exact_ops (PyInt 0) (PyFloat (FFinite (1 / 100))) new_instance
              = (Raise ValueError,
                 set_fpr (PyFloat (FFinite (1 / 100))) (set_n (PyInt 0) new_instance))).
  { apply init_invalid. reflexivity. }
  split; [exact H |].
  apply (methods_need_construction (HA:=int_hash) (HS:=int_salt_hash)
           exact_ops _ _ _ 1 0 H).
Defined.

(** The filter [BloomFilter(10, 0.5)] and the element 42: an instance of
    X10. *)
Lemma new_filter_is_empty_witness :
  fst (__contains__ (HA:=int_hash) (HS:=int_salt_hash) 42
         (built exact_ops 10 (1 / 2))) = Ok false.
Proof.
  apply (new_filter_is_empty (HA:=int_hash) (HS:=int_salt_hash) exact_ops 0
           (PyInt 10) (PyFloat (FFinite (1 / 2))) _ 42
           exact_accurate_0 unit_interval_0 BloomFilter_10_half).
Defined.

(** The filter [BloomFilter(10, 0.5)]: an instance of X11. *)
Lemma constructor_postcondition_witness :
  let s := built exact_ops 10 (1 / 2) in
  attr_n s = Some (PyInt 10)
  /\ exists m k,
       attr_m s = Some m /\ attr_k s = Some k /\ 0 < m /\ 0 < k
       /\ attr_bits s = Some (replicate (Z.to_nat m) false).
Proof.
  destruct (constructor_postcondition exact_ops 0 (PyInt 10)
              (PyFloat (FFinite (1 / 2))) _ exact_accurate_0 unit_interval_0
              BloomFilter_10_half) as (_ & _ & Hn & _ & _ & Hrest).
  split; [exact Hn | exact Hrest].
Defined.

(** The filter [BloomFilter(10, 0.5)]: an instance of X12. *)
Lemma hash_count_at_most_bit_count_witness :
  exists m k,
    attr_m (built exact_ops 10 (1 / 2)) = Some m
    /\ attr_k (built exact_ops 10 (1 / 2)) = Some k /\ 1 <= k <= m.
Proof.
  apply (hash_count_at_most_bit_count exact_ops 0 (PyInt 10)
           (PyFloat (FFinite (1 / 2))) _ exact_accurate_0 u_max_0
           BloomFilter_10_half).
Defined.

(** The filters for [(10, 0.5)] and [(20, 0.25)]: an instance of X13. *)
Lemma bit_count_monotone_witness :
  (IZR (m_of exact_ops 10 (1 / 2))
   < IZR (m_of exact_ops 20 (1 / 4)) * ((1 + 0) / (1 - 0)) ^ 7 + 1)%R
  /\ (0%R = 0%R -> m_of exact_ops 10 (1 / 2) <= m_of exact_ops 20 (1 / 4)).
Proof.
  apply (bit_count_monotone exact_ops 0 10 20 (1 / 2) (1 / 4)
           (built exact_ops 10 (1 / 2)) (built exact_ops 20 (1 / 4))).
  - exact exact_accurate_0.
  - lra.
  - exact BloomFilter_10_half.
  - apply (BloomFilter_valid exact_ops 0 20 (1 / 4) exact_accurate_0); lra || lia.
  - reflexivity.
  - reflexivity.
  - lia.
  - lra.
Defined.

(** [measure_fpr(10, 0.5)] and [measure_fpr(0, 0.5)]: an instance of X14. *)
Lemma measure_fpr_outcome_witness :
  exists zn c,
    PyInt 10 = PyInt zn
    /\ c = Z.of_nat
             (length (List.filter
                        (reported (HZ:=int_hash) (HZS:=int_salt_hash)
                           (add_all (HA:=int_hash) (HS:=int_salt_hash) (range zn)
                              (built exact_ops 10 (1 / 2))))
                        (range_from zn (zn + n_trials))))
    /\ 0 <= c <= n_trials
    /\ measure_fpr (HZ:=int_hash) (HZS:=int_salt_hash) exact_ops
         (PyInt 10) (PyFloat (FFinite (1 / 2)))
       = Ok (f_truediv exact_ops c n_trials).
Proof.
  destruct (measure_fpr_outcome (HZ:=int_hash) (HZS:=int_salt_hash) exact_ops
              (PyInt 10) (PyFloat (FFinite (1 / 2)))) as (_ & H10 & _).
  apply (H10 (built exact_ops 10 (1 / 2)) (m_of exact_ops 10 (1 / 2))).
  - exact BloomFilter_10_half.
  - reflexivity.
  - apply (m_of_pos exact_ops 0 exact_accurate_0 unit_interval_0); [lia | lra].
Defined.

Lemma m_of_1000_08 : m_of exact_ops 1000 (4 / 5) = 465.
Proof.
  apply (table_1000_08 exact_ops 0 (4 / 5) exact_accurate_0 u_max_0
           (float_literal_exact (4 / 5))).
Qed.

(** [measure_fpr(1000, 0.8)] in exact arithmetic: an instance of X15. *)
Lemma measure_fpr_saturated_witness :
  m_of exact_ops 1000 (4 / 5) <= 1000
  /\ measure_fpr (HZ:=int_hash) (HZS:=int_salt_hash) exact_ops
       (PyInt 1000) (PyFloat (FFinite (4 / 5)))
     = Ok (f_truediv exact_ops n_trials n_trials).
Proof.
  assert (Hm : m_of exact_ops 1000 (4 / 5) <= 1000) by (rewrite m_of_1000_08; lia).
  split; [exact Hm |].
  apply (measure_fpr_saturated (HZ:=int_hash) (HZS:=int_salt_hash) exact_ops 0
           1000 (4 / 5) exact_accurate_0 unit_interval_0);
    [lia | lra | intros z _; reflexivity | exact Hm].
Defined.

(** [measure_fpr(1000, 0.8)] in exact arithmetic is 1: an instance of X16. *)
Lemma measure_fpr_1000_08_witness :
  measure_fpr (HZ:=int_hash) (HZS:=int_salt_hash) exact_ops
    (PyInt 1000) (PyFloat (FFinite (4 / 5))) = Ok 1%R.
Proof.
  destruct (measure_fpr_1000_08 (HZ:=int_hash) (HZS:=int_salt_hash) exact_ops 0
              (4 / 5) exact_accurate_0 u_max_0 (float_literal_exact (4 / 5))
              (fun z _ => eq_refl)) as [_ H].
  rewrite H. f_equal. simpl. unfold n_trials. field.
Defined.
